(** * gst-dots: the watch / render / sync core of [index.js]

    A shallow embedding of the two chokidar callbacks of [index.js]:
    the source watcher (lines 30-63), which turns [*dot] files into an
    SVG image and an HTML wrapper page, and the registry watcher (lines
    65-74), which keeps the in-memory array [dots] in step with the
    wrapper pages on disk and asks the live-reload server to refresh.

    JavaScript strings are modelled as [string]; the array [dots] as a
    [list string]; the files of the disk as a [gmap string string] from
    path to content; the handlers as computations in a state-and-exception
    monad over the record [World]. *)

From Stdlib Require Import ZArith Ascii String List Lia.
From stdpp Require Import base decidable option list gmap strings.
Import ListNotations.

Local Open Scope string_scope.
Local Open Scope list_scope.
Local Open Scope Z_scope.

(** ** JavaScript library functions used by [index.js] *)

Module JS.

(** [strip_prefix pat s]: the rest of [s] after [pat] when [s] starts
    with [pat]. *)
Fixpoint strip_prefix (pat s : string) : option string :=
  match pat with
  | EmptyString => Some s
  | String a pat' =>
      match s with
      | EmptyString => None
      | String b s' => if Ascii.eqb a b then strip_prefix pat' s' else None
      end
  end.

(** Position of the first occurrence of [pat] in [s], as the text
    before it and the text after it. *)
Fixpoint split_first (pat s : string) : option (string * string) :=
  match strip_prefix pat s with
  | Some rest => Some (EmptyString, rest)
  | None =>
      match s with
      | EmptyString => None
      | String c s' =>
          match split_first pat s' with
          | Some (before, after) => Some (String c before, after)
          | None => None
          end
      end
  end.

(** Number of positions of [s] at which [pat] occurs. *)
Fixpoint occurrences (pat s : string) : nat :=
  ((match strip_prefix pat s with Some _ => 1 | None => 0 end) +
   match s with
   | EmptyString => 0
   | String _ s' => occurrences pat s'
   end)%nat.

(** ECMAScript GetSubstitution for a string pattern (no captures):
    [$$] is a dollar, [$&] the matched text, [$`] the text before the
    match, [$'] the text after it; any other character, a lone dollar
    included, stands for itself. *)
Fixpoint get_substitution (matched before after repl : string) : string :=
  match repl with
  | EmptyString => EmptyString
  | String c tl =>
      if Ascii.eqb c "$" then
        match tl with
        | String d tl' =>
            if Ascii.eqb d "$" then
              String "$" (get_substitution matched before after tl')
            else if Ascii.eqb d "&" then
              matched +:+ get_substitution matched before after tl'
            else if Ascii.eqb d "`" then
              before +:+ get_substitution matched before after tl'
            else if Ascii.eqb d "'" then
              after +:+ get_substitution matched before after tl'
            else String c (get_substitution matched before after tl)
        | EmptyString => String c EmptyString
        end
      else String c (get_substitution matched before after tl)
  end.

(** [String.prototype.replace(pat, repl)] with a string pattern: only
    the first occurrence is replaced; no occurrence, no change. *)
Definition replace (pat repl s : string) : string :=
  match split_first pat s with
  | Some (before, after) =>
      before +:+ get_substitution pat before after repl +:+ after
  | None => s
  end.

(** Split a path at every slash. *)
Fixpoint components (p : string) : list string :=
  match p with
  | EmptyString => [EmptyString]
  | String c p' =>
      if Ascii.eqb c "/" then EmptyString :: components p'
      else match components p' with
           | x :: xs => String c x :: xs
           | [] => [String c EmptyString]
           end
  end.

Definition nonempty (s : string) : bool :=
  match s with EmptyString => false | String _ _ => true end.

(** POSIX [path.basename(p)]: the last portion of the path, trailing
    separators ignored. *)
Definition basename (p : string) : string :=
  List.last (List.filter nonempty (components p)) EmptyString.

(** [Array.prototype.indexOf]: index of the first element equal to
    [x], or -1. *)
Fixpoint indexOf (x : string) (l : list string) : Z :=
  match l with
  | [] => -1
  | y :: l' =>
      if String.eqb y x then 0
      else let i := indexOf x l' in if i <? 0 then -1 else i + 1
  end.

(** [Array.prototype.push] of one element. *)
Definition push (x : string) (l : list string) : list string := l ++ [x].

(** [Array.prototype.splice(start, deleteCount)] with no inserted
    items: a negative [start] counts from the end, and both arguments
    are clamped to the array. *)
Definition splice (start deleteCount : Z) (l : list string) : list string :=
  let len := Z.of_nat (length l) in
  let actualStart :=
    if start <? 0 then Z.max (len + start) 0 else Z.min start len in
  let actualDeleteCount :=
    Z.min (Z.max deleteCount 0) (len - actualStart) in
  take (Z.to_nat actualStart) l ++
  drop (Z.to_nat (actualStart + actualDeleteCount)) l.

End JS.

(** ** The world the callbacks run in *)

Definition error := string.

(** What the process does to the outside, in the order it happens. *)
Inductive effect :=
| Spawn (command : string) (args : list string)
| ConsoleError (e : error)
| ConsoleLog (line : string)
| Refresh (url : string).

(** The callbacks handed to [fs.readFile] and [fs.writeFile], as the
    variables they close over. *)
Inductive callback :=
| TemplateRead (dotFile html_file : string)
| HtmlWritten (html_file : string).

(** An asynchronous file operation that has been issued and has not
    completed yet. *)
Inductive task :=
| ReadFile (path : string) (cb : callback)
| WriteFile (path data : string) (cb : callback).

Record World := mkWorld {
  files : gmap string string;   (* regular files, by path *)
  dots : list string;           (* let dots = [] *)
  pending : list task;          (* issued, not yet completed *)
  log : list effect             (* effects so far, oldest first *)
}.

(** The state of the process once the module body has run: nothing is
    in [dots], nothing has been issued, and [disk] is what the disk
    holds. *)
Definition initial (disk : gmap string string) : World :=
  {| files := disk; dots := []; pending := []; log := [] |}.

(** State and exceptions: a computation ends normally with a value or
    throws, and in both cases leaves a world behind. *)
Definition M (A : Type) : Type := World -> (error + A) * World.

Definition ret {A} (a : A) : M A := fun w => (inr a, w).

Definition bind {A B} (m : M A) (k : A -> M B) : M B :=
  fun w =>
    match m w with
    | (inr a, w') => k a w'
    | (inl e, w') => (inl e, w')
    end.

Definition throw {A} (e : error) : M A := fun w => (inl e, w).

Notation "'let!' x ':=' m 'in' k" := (bind m (fun x => k))
  (at level 10, x name, m at level 100, k at level 200).
Notation "m >> k" := (bind m (fun _ => k))
  (at level 90, right associativity).

Definition when (b : bool) (m : M unit) : M unit :=
  if b then m else ret tt.

Definition emit (e : effect) : M unit :=
  fun w => (inr tt, {| files := files w; dots := dots w;
                       pending := pending w; log := log w ++ [e] |}).

Definition issue (t : task) : M unit :=
  fun w => (inr tt, {| files := files w; dots := dots w;
                       pending := pending w ++ [t]; log := log w |}).

Definition get_dots : M (list string) := fun w => (inr (dots w), w).

Definition set_dots (l : list string) : M unit :=
  fun w => (inr tt, {| files := files w; dots := l;
                       pending := pending w; log := log w |}).

(** *** Node's [fs], [child_process] and [console] *)

Module fs.

Definition existsSync (path : string) : M bool :=
  fun w => (inr (bool_decide (is_Some (files w !! path))), w).

(** [fs.rmSync(path)] without [force]: throws when there is no such
    file. *)
Definition rmSync (path : string) : M unit :=
  fun w =>
    match files w !! path with
    | Some _ =>
        (inr tt, {| files := delete path (files w); dots := dots w;
                    pending := pending w; log := log w |})
    | None =>
        throw ("ENOENT: no such file or directory, rm '" +:+ path +:+ "'") w
    end.

Definition readFile (path : string) (cb : callback) : M unit :=
  issue (ReadFile path cb).

Definition writeFile (path data : string) (cb : callback) : M unit :=
  issue (WriteFile path data cb).

End fs.

Definition spawn (command : string) (args : list string) : M unit :=
  emit (Spawn command args).

Module console.
Definition error (e : error) : M unit := emit (ConsoleError e).
Definition log (line : string) : M unit := emit (ConsoleLog line).
End console.

Module liveReloadServer.
Definition refresh (url : string) : M unit := emit (Refresh url).
End liveReloadServer.

(** ** The source watcher callback (lines 30-63) *)

Definition svgDir : string := "./public/svg/".

Definition template_path : string := "templates/single_graph_template.html".

Definition placeholder : string := "{{ svg_file_path }}".

Definition svg_file (dotFile : string) : string :=
  svgDir +:+ JS.replace ".dot" ".svg" (JS.basename dotFile).

Definition html_file (dotFile : string) : string :=
  svgDir +:+ JS.replace ".dot" ".html" (JS.basename dotFile).

(** Callback of [fs.writeFile] (lines 47-53). *)
Definition html_written (html_file : string) (err : option error) : M unit :=
  match err with
  | Some e => console.error e
  | None => console.log (html_file +:+ " has been saved!")
  end.

(** Callback of [fs.readFile] (lines 37-54). *)
Definition template_read (dotFile html_file : string)
    (err : option error) (template : string) : M unit :=
  match err with
  | Some e => console.error e
  | None =>
      let graphHtml :=
        JS.replace placeholder
          (JS.replace ".dot" ".svg" (JS.basename dotFile)) template in
      fs.writeFile html_file graphHtml (HtmlWritten html_file)
  end.

Definition source_on_all (event dotFile : string) : M unit :=
  let svg_file := svg_file dotFile in
  let html_file := html_file dotFile in
  if String.eqb event "add" then
    spawn "dot" ["-Tsvg"; dotFile; "-o"; svg_file] >>
    fs.readFile template_path (TemplateRead dotFile html_file)
  else if String.eqb event "unlink" then
    (let! b := fs.existsSync svg_file in when b (fs.rmSync svg_file)) >>
    (let! b := fs.existsSync html_file in when b (fs.rmSync html_file))
  else ret tt.

(** ** The registry watcher callback (lines 65-74) *)

Definition registry_key (path : string) : string :=
  JS.replace "public/" EmptyString path.

Definition registry_on_all (event path : string) : M unit :=
  let html_file := registry_key path in
  let! ds := get_dots in
  let index := JS.indexOf html_file ds in
  (if String.eqb event "add" && (index <? 0) then
     set_dots (JS.push html_file ds)
   else if String.eqb event "unlink" && (index >=? 0) then
     set_dots (JS.splice index 1 ds)
   else ret tt) >>
  liveReloadServer.refresh "/".

(** [app.get('')] renders the index page from [dots] itself. *)
Definition snapshot (w : World) : list string := dots w.

(** ** The event loop

    Node runs one callback at a time.  What makes it run one is either
    a watcher reporting an event or an issued file operation completing;
    which of these comes next, and with what result, is up to the
    environment. *)

(** How an operation ends: with an error, or well; a read that ends
    well brings the content it read, whatever the environment makes
    it, and a write that ends well has put its data in the file. *)
Inductive outcome :=
| Failed (e : error)
| Done (data : string).

Inductive action :=
| SourceEvent (event dotFile : string)
| RegistryEvent (event path : string)
| Complete (n : nat) (r : outcome).   (* the n-th pending operation *)

Definition run_callback (cb : callback) (err : option error)
    (data : string) : M unit :=
  match cb with
  | TemplateRead dotFile html_file => template_read dotFile html_file err data
  | HtmlWritten html_file => html_written html_file err
  end.

Definition settle (n : nat) : M unit :=
  fun w => (inr tt, {| files := files w; dots := dots w;
                       pending := delete n (pending w); log := log w |}).

Definition store (path data : string) : M unit :=
  fun w => (inr tt, {| files := <[path := data]> (files w); dots := dots w;
                       pending := pending w; log := log w |}).

Definition complete (n : nat) (r : outcome) : M unit :=
  fun w =>
    match pending w !! n with
    | Some (ReadFile _ cb) =>
        (settle n >>
         match r with
         | Failed e => run_callback cb (Some e) EmptyString
         | Done data => run_callback cb None data
         end) w
    | Some (WriteFile path data cb) =>
        (settle n >>
         match r with
         | Failed e => run_callback cb (Some e) EmptyString
         | Done _ => store path data >> run_callback cb None EmptyString
         end) w
    | None => (inr tt, w)
    end.

Definition exec (a : action) : M unit :=
  match a with
  | SourceEvent event dotFile => source_on_all event dotFile
  | RegistryEvent event path => registry_on_all event path
  | Complete n r => complete n r
  end.

(** A callback that throws takes the process down: the rest of the
    schedule does not run. *)
Fixpoint run (acts : list action) : M unit :=
  match acts with
  | [] => ret tt
  | a :: rest => exec a >> run rest
  end.

(** The world a computation leaves behind. *)
Definition after {A} (m : M A) (w : World) : World := snd (m w).

(** Whether a computation ends without throwing. *)
Definition returns {A} (m : M A) (w : World) : bool :=
  match fst (m w) with inr _ => true | inl _ => false end.

(** Number of refresh signals sent so far. *)
Definition is_refresh (e : effect) : bool :=
  match e with Refresh _ => true | _ => false end.

Definition refreshes (w : World) : nat :=
  length (List.filter is_refresh (log w)).

(** Whether a file write has been issued and is still outstanding. *)
Definition is_write (t : task) : bool :=
  match t with WriteFile _ _ _ => true | ReadFile _ _ => false end.

(** *** Reading a schedule as a stream of registry events *)

(** Net count of [h]: [add] events minus [unlink] events that name it. *)
Definition net_one (h : string) (a : action) : Z :=
  match a with
  | RegistryEvent event path =>
      if String.eqb (registry_key path) h then
        if String.eqb event "add" then 1
        else if String.eqb event "unlink" then -1 else 0
      else 0
  | _ => 0
  end.

Fixpoint net (h : string) (acts : list action) : Z :=
  match acts with
  | [] => 0
  | a :: rest => net_one h a + net h rest
  end.

(** Whether the last [add] or [unlink] that names [h] is an [add];
    [b] when there is none. *)
Fixpoint last_add (b : bool) (h : string) (acts : list action) : bool :=
  match acts with
  | [] => b
  | RegistryEvent event path :: rest =>
      if String.eqb (registry_key path) h then
        if String.eqb event "add" then last_add true h rest
        else if String.eqb event "unlink" then last_add false h rest
        else last_add b h rest
      else last_add b h rest
  | _ :: rest => last_add b h rest
  end.

(** The ordering a watcher keeps for one path (spec 4.1, 4.3): an [add]
    only for a file it is not yet tracking, an [unlink] only for one it
    is tracking. *)
Fixpoint ordered (seen : gset string) (acts : list action) : bool :=
  match acts with
  | [] => true
  | RegistryEvent event path :: rest =>
      let h := registry_key path in
      if String.eqb event "add" then
        bool_decide (h ∉ seen) && ordered (seen ∪ {[h]}) rest
      else if String.eqb event "unlink" then
        bool_decide (h ∈ seen) && ordered (seen ∖ {[h]}) rest
      else ordered seen rest
  | _ :: rest => ordered seen rest
  end.

(** Whether the schedule holds an [unlink] that names [h]. *)
Definition unlinks (h : string) (a : action) : bool :=
  match a with
  | RegistryEvent event path =>
      String.eqb event "unlink" && String.eqb (registry_key path) h
  | _ => false
  end.

Definition removed_in (acts : list action) (h : string) : bool :=
  existsb (unlinks h) acts.

Definition is_registry (a : action) : bool :=
  match a with RegistryEvent _ _ => true | _ => false end.

(** ** Schedules and statements used below *)

(** What one step of the loop does to [dots]: one constructor for each
    branch of the registry callback, and one for everything that is not
    a registry event. *)
Inductive registry_step (l : list string) : action -> list string -> Prop :=
| step_add path :
    registry_key path ∉ l ->
    registry_step l (RegistryEvent "add" path) (l ++ [registry_key path])
| step_add_listed path :
    registry_key path ∈ l ->
    registry_step l (RegistryEvent "add" path) l
| step_unlink path l1 l2 :
    l = l1 ++ registry_key path :: l2 -> registry_key path ∉ l1 ->
    registry_step l (RegistryEvent "unlink" path) (l1 ++ l2)
| step_unlink_absent path :
    registry_key path ∉ l ->
    registry_step l (RegistryEvent "unlink" path) l
| step_other event path :
    event <> "add" -> event <> "unlink" ->
    registry_step l (RegistryEvent event path) l
| step_pipeline a :
    is_registry a = false -> registry_step l a l.

(** The entries of [l] that no [unlink] of the schedule names. *)
Definition kept (acts : list action) (l : list string) : list string :=
  List.filter (fun h => negb (removed_in acts h)) l.

(** The registry events of the scenario: add a, add b, remove a, add a
    again. *)
Definition scenario : list action :=
  [RegistryEvent "add" "public/svg/a.html";
   RegistryEvent "add" "public/svg/b.html";
   RegistryEvent "unlink" "public/svg/a.html";
   RegistryEvent "add" "public/svg/a.html"].

(** A registry that already lists [svg/a.html]. *)
Definition listing_a : World :=
  after (registry_on_all "add" "public/svg/a.html") (initial ∅).

(** An [add], its template read and its page write, run back to back
    in a world with [k] operations outstanding. *)
Definition add_then_complete (dotFile : string) (k : nat)
    (read written : outcome) : list action :=
  [SourceEvent "add" dotFile; Complete k read; Complete k written].

(** An [add] and its template read, run back to back in a world with
    [k] operations outstanding. *)
Definition add_then_read (dotFile : string) (k : nat) (read : outcome)
    : list action :=
  [SourceEvent "add" dotFile; Complete k read].

(** The refresh rule as the specification words it: one signal when the
    event changes [dots], none when it does not. *)
Definition refresh_only_on_change (event path : string) (w : World) : Prop :=
  let w' := after (registry_on_all event path) w in
  refreshes w' =
  (refreshes w + if bool_decide (dots w' = dots w) then 0 else 1)%nat.

(** The registry claim as the specification words it: after the
    schedule, what is listed is what has an odd net count. *)
Definition listed_iff_net_odd (acts : list action) : Prop :=
  forall h, h ∈ dots (after (run acts) (initial ∅)) <-> Z.odd (net h acts) = true.

(** ** Notions for the schedule-wide properties *)

(** Whether a path lies under [svgDir]. *)
Definition inside_svgDir (path : string) : bool :=
  match JS.strip_prefix svgDir path with Some _ => true | None => false end.

(** What the source watcher leaves outstanding: a read of the template
    whose callback holds the two paths of one description file, or a
    write of a page to the very path its callback names. *)
Definition issued_by_pipeline (t : task) : Prop :=
  match t with
  | ReadFile path (TemplateRead dotFile h) =>
      path = template_path /\ h = html_file dotFile
  | WriteFile path _ (HtmlWritten h) =>
      h = path /\ exists dotFile, path = html_file dotFile
  | _ => False
  end.

(** Number of renderer processes started so far. *)
Definition is_spawn (e : effect) : bool :=
  match e with Spawn _ _ => true | _ => false end.

Definition spawns (w : World) : nat :=
  length (List.filter is_spawn (log w)).

Definition is_source_add (a : action) : bool :=
  match a with
  | SourceEvent event _ => String.eqb event "add"
  | _ => false
  end.

Definition is_pipeline (a : action) : bool := negb (is_registry a).

(** A report of the source watcher that is neither an [add] nor an
    [unlink]: a [change], an [addDir], an [unlinkDir]. *)
Definition is_other_source_event (a : action) : bool :=
  match a with
  | SourceEvent event _ =>
      negb (String.eqb event "add") && negb (String.eqb event "unlink")
  | _ => false
  end.


(** ** The library functions on small inputs *)

Example replace_first_only :
  JS.replace ".dot" ".svg" "a.dot.dot" = "a.svg.dot".
Proof. reflexivity. Qed.

Example replace_no_match : JS.replace ".dot" ".svg" "graphdot" = "graphdot".
Proof. reflexivity. Qed.

Example replace_dollar_patterns :
  JS.replace "{{ x }}" "a$&b$$c$`d$'e$1$" "<{{ x }}>" = "<a{{ x }}b$c<d>e$1$>".
Proof. reflexivity. Qed.

Example basename_absolute : JS.basename "/tmp/dots/a.dot" = "a.dot".
Proof. reflexivity. Qed.

Example basename_trailing_slashes : JS.basename "/tmp/dots//" = "dots".
Proof. reflexivity. Qed.

Example basename_root : JS.basename "/" = EmptyString.
Proof. reflexivity. Qed.

Example indexOf_first_match : JS.indexOf "b" ["a"; "b"; "b"] = 1.
Proof. reflexivity. Qed.

Example indexOf_missing : JS.indexOf "c" ["a"; "b"] = -1.
Proof. reflexivity. Qed.

Example splice_middle : JS.splice 1 1 ["a"; "b"; "c"] = ["a"; "c"].
Proof. reflexivity. Qed.

Example splice_from_end : JS.splice (-1) 1 ["a"; "b"; "c"] = ["a"; "b"].
Proof. reflexivity. Qed.

Example splice_clamped : JS.splice 2 5 ["a"; "b"; "c"] = ["a"; "b"].
Proof. reflexivity. Qed.

(** ** Strings *)

Section Strings.

Lemma append_nil_l (s : string) : EmptyString +:+ s = s.
Proof. reflexivity. Qed.

Lemma append_cons (c : ascii) (s t : string) :
  String c s +:+ t = String c (s +:+ t).
Proof. reflexivity. Qed.

Lemma strip_prefix_app (pat rest : string) :
  JS.strip_prefix pat (pat +:+ rest) = Some rest.
Proof.
  induction pat as [|a pat IH]; [reflexivity|].
  rewrite append_cons. cbn [JS.strip_prefix].
  by rewrite Ascii.eqb_refl.
Qed.

Lemma strip_prefix_Some (pat s rest : string) :
  JS.strip_prefix pat s = Some rest -> s = pat +:+ rest.
Proof.
  revert s. induction pat as [|a pat IH]; intros s H.
  - cbn in H. by inversion H.
  - destruct s as [|b s]; [discriminate|]. cbn in H.
    destruct (Ascii.eqb a b) eqn:E; [|discriminate].
    apply Ascii.eqb_eq in E as ->. rewrite append_cons.
    f_equal. by apply IH.
Qed.

Lemma split_first_Some (pat s before after : string) :
  JS.split_first pat s = Some (before, after) ->
  s = before +:+ pat +:+ after.
Proof.
  revert before. induction s as [|c s IH]; intros before H.
  - cbn in H. destruct (JS.strip_prefix pat EmptyString) eqn:E; [|discriminate].
    inversion H; subst. by apply strip_prefix_Some in E.
  - cbn [JS.split_first] in H.
    destruct (JS.strip_prefix pat (String c s)) eqn:E.
    + inversion H; subst. by apply strip_prefix_Some in E.
    + destruct (JS.split_first pat s) as [[b a]|] eqn:F; [|discriminate].
      inversion H; subst. rewrite append_cons. f_equal. by apply IH.
Qed.

Lemma split_first_None (pat s : string) :
  JS.occurrences pat s = 0%nat -> JS.split_first pat s = None.
Proof.
  induction s as [|c s IH]; cbn [JS.occurrences JS.split_first];
    destruct (JS.strip_prefix pat _); intros H; try discriminate; try done.
  rewrite IH; [done | lia].
Qed.

Lemma replace_absent (pat repl s : string) :
  JS.occurrences pat s = 0%nat -> JS.replace pat repl s = s.
Proof. intros H. unfold JS.replace. by rewrite split_first_None. Qed.

End Strings.

(** ** Deriving the artifact names *)

Section Derivation.

(** [".dot"] starts with the only dot it holds, so an occurrence can
    not straddle the end of a text that is free of it. *)
Lemma dot_not_straddling (c : ascii) (pre post : string) :
  JS.strip_prefix ".dot" (String c pre) = None ->
  JS.strip_prefix ".dot" (String c (pre +:+ ".dot" +:+ post)) = None.
Proof.
  cbn [JS.strip_prefix]. destruct (Ascii.eqb "." c); [|done].
  destruct pre as [|c1 pre]; [done|]. rewrite append_cons.
  destruct (Ascii.eqb "d" c1); [|done].
  destruct pre as [|c2 pre]; [done|]. rewrite append_cons.
  destruct (Ascii.eqb "o" c2); [|done].
  destruct pre as [|c3 pre]; [done|]. rewrite append_cons.
  destruct (Ascii.eqb "t" c3); [|done]. discriminate.
Qed.

Lemma split_first_dot (pre post : string) :
  JS.occurrences ".dot" pre = 0%nat ->
  JS.split_first ".dot" (pre +:+ ".dot" +:+ post) = Some (pre, post).
Proof.
  induction pre as [|c pre IH]; intros H; [reflexivity|].
  rewrite append_cons. cbn [JS.split_first].
  cbn [JS.occurrences] in H.
  destruct (JS.strip_prefix ".dot" (String c pre)) eqn:E; [lia|].
  rewrite (dot_not_straddling _ _ _ E), IH; [done | lia].
Qed.

Lemma replace_first_dot (ext pre post : string) :
  JS.occurrences "$" ext = 0%nat ->
  JS.occurrences ".dot" pre = 0%nat ->
  JS.replace ".dot" ext (pre +:+ ".dot" +:+ post) = pre +:+ ext +:+ post.
Proof.
  intros Hext H. unfold JS.replace. rewrite split_first_dot by done.
  do 2 f_equal. clear H.
  induction ext as [|c ext IH]; [reflexivity|].
  cbn [JS.occurrences JS.strip_prefix] in Hext.
  cbn [JS.get_substitution]. rewrite Ascii.eqb_sym.
  destruct (Ascii.eqb "$" c); [lia|].
  f_equal. apply IH. lia.
Qed.

(** The paths the registry watcher reports lie in [public/svg/]; their
    entries are the same paths without [public/], one entry per
    path. *)
Lemma registry_key_watched (name : string) :
  registry_key ("public/svg/" +:+ name) = "svg/" +:+ name.
Proof. reflexivity. Qed.

Lemma registry_key_inj (name1 name2 : string) :
  registry_key ("public/svg/" +:+ name1) =
  registry_key ("public/svg/" +:+ name2) ->
  name1 = name2.
Proof.
  rewrite !registry_key_watched. intros H. by apply (inj (String.append _)) in H.
Qed.

End Derivation.

(** ** Arrays *)

Section Arrays.

Lemma indexOf_ge (x : string) (l : list string) : -1 <= JS.indexOf x l.
Proof.
  induction l as [|y l IH]; cbn [JS.indexOf]; [lia|].
  destruct (String.eqb y x); [lia|].
  destruct (Z.ltb_spec (JS.indexOf x l) 0); lia.
Qed.

Lemma indexOf_absent (x : string) (l : list string) :
  JS.indexOf x l < 0 <-> x ∉ l.
Proof.
  induction l as [|y l IH]; cbn [JS.indexOf].
  - split; [intros _; apply not_elem_of_nil | lia].
  - rewrite not_elem_of_cons.
    destruct (String.eqb_spec y x) as [->|Hne].
    + split; [lia | intros [? _]; done].
    + pose proof (indexOf_ge x l).
      destruct (Z.ltb_spec (JS.indexOf x l) 0) as [Hlt|Hge].
      * split; [intros _; split; [congruence | by apply IH] | lia].
      * split; [lia | intros [_ Hl]; apply IH in Hl; lia].
Qed.

(** A found index splits the array at the first occurrence. *)
Lemma indexOf_present (x : string) (l : list string) :
  0 <= JS.indexOf x l ->
  exists l1 l2, l = l1 ++ x :: l2 /\ (x ∉ l1) /\
                JS.indexOf x l = Z.of_nat (length l1).
Proof.
  induction l as [|y l IH]; cbn [JS.indexOf]; [lia|].
  destruct (String.eqb_spec y x) as [->|Hne].
  - intros _. exists [], l. split; [done|]. split; [apply not_elem_of_nil | done].
  - destruct (Z.ltb_spec (JS.indexOf x l) 0) as [Hlt|Hge]; [lia|].
    intros _. destruct (IH Hge) as (l1 & l2 & -> & Hx & Hi).
    exists (y :: l1), l2. split; [done|]. split.
    + rewrite not_elem_of_cons. split; [congruence | done].
    + rewrite Hi. cbn [length]. lia.
Qed.

Lemma indexOf_first (x : string) (l1 l2 : list string) :
  x ∉ l1 -> JS.indexOf x (l1 ++ x :: l2) = Z.of_nat (length l1).
Proof.
  induction l1 as [|y l1 IH]; intros Hx; cbn [JS.indexOf app length].
  - by rewrite String.eqb_refl.
  - apply not_elem_of_cons in Hx as [Hne Hx].
    destruct (String.eqb_spec y x) as [->|_]; [done|].
    rewrite IH by done. destruct (Z.ltb_spec (Z.of_nat (length l1)) 0); lia.
Qed.

(** [splice(i, 1)] at a valid index drops exactly that element. *)
Lemma splice_one (l1 l2 : list string) (x : string) :
  JS.splice (Z.of_nat (length l1)) 1 (l1 ++ x :: l2) = l1 ++ l2.
Proof.
  unfold JS.splice. rewrite length_app. cbn [length].
  set (n := length l1). set (m := length l2).
  destruct (Z.ltb_spec (Z.of_nat n) 0) as [?|_]; [lia|].
  replace (Z.min (Z.of_nat n) (Z.of_nat (n + S m))) with (Z.of_nat n) by lia.
  replace (Z.min (Z.max 1 0) (Z.of_nat (n + S m) - Z.of_nat n)) with 1 by lia.
  replace (Z.to_nat (Z.of_nat n + 1)) with (S n) by lia.
  rewrite Nat2Z.id. subst n.
  rewrite take_app_length.
  replace (l1 ++ x :: l2) with ((l1 ++ [x]) ++ l2) by (by rewrite <- app_assoc).
  rewrite drop_app_length'; [done|]. rewrite length_app. cbn. lia.
Qed.

End Arrays.

(** ** One callback at a time *)

Ltac unfold_m :=
  unfold after, returns, when, liveReloadServer.refresh, console.error,
    console.log, spawn, fs.readFile, fs.writeFile, fs.existsSync, fs.rmSync,
    bind, ret, get_dots, set_dots, emit, issue, settle, store in *.

Section Registry.

Variables (event path : string) (w : World).

Let h := registry_key path.
Let w' := after (registry_on_all event path) w.

(** The callback in closed form: it cannot throw, it touches [dots]
    and the log, and nothing else. *)
Lemma registry_on_all_eq :
  registry_on_all event path w =
  (inr tt,
   {| files := files w;
      dots :=
        (let index := JS.indexOf h (dots w) in
         if String.eqb event "add" && (index <? 0)
         then JS.push h (dots w)
         else if String.eqb event "unlink" && (index >=? 0)
         then JS.splice index 1 (dots w)
         else dots w);
      pending := pending w;
      log := log w ++ [Refresh "/"] |}).
Proof.
  subst h. unfold registry_on_all. unfold_m. cbn zeta.
  destruct (_ && _); [done|]. destruct (_ && _); [done|].
  by destruct w.
Qed.

Lemma registry_returns : returns (registry_on_all event path) w = true.
Proof. unfold returns. by rewrite registry_on_all_eq. Qed.

Lemma registry_frame :
  files w' = files w /\ pending w' = pending w /\
  log w' = log w ++ [Refresh "/"].
Proof. subst w'. unfold after. by rewrite registry_on_all_eq. Qed.

Lemma registry_add_absent :
  event = "add" -> h ∉ dots w -> dots w' = dots w ++ [h].
Proof.
  intros Hev Hh. apply indexOf_absent in Hh. apply Z.ltb_lt in Hh.
  subst w'. unfold after. rewrite registry_on_all_eq, Hev. cbn. by rewrite Hh.
Qed.

Lemma registry_add_present :
  event = "add" -> h ∈ dots w -> dots w' = dots w.
Proof.
  intros Hev Hh. subst w'. unfold after. rewrite registry_on_all_eq, Hev. cbn.
  destruct (Z.ltb_spec (JS.indexOf h (dots w)) 0) as [Hlt|_]; [|done].
  by apply indexOf_absent in Hlt.
Qed.

Lemma registry_unlink_present (l1 l2 : list string) :
  event = "unlink" -> dots w = l1 ++ h :: l2 -> h ∉ l1 ->
  dots w' = l1 ++ l2.
Proof.
  intros Hev Hd Hh. subst w'. unfold after.
  rewrite registry_on_all_eq, Hev. cbn.
  rewrite Hd, indexOf_first by done.
  destruct (Z.geb_spec (Z.of_nat (length l1)) 0) as [_|?]; [|lia].
  apply splice_one.
Qed.

Lemma registry_unlink_absent :
  event = "unlink" -> h ∉ dots w -> dots w' = dots w.
Proof.
  intros Hev Hh. apply indexOf_absent in Hh.
  subst w'. unfold after. rewrite registry_on_all_eq, Hev. cbn.
  destruct (Z.geb_spec (JS.indexOf h (dots w)) 0); [lia|done].
Qed.

Lemma registry_other :
  event <> "add" -> event <> "unlink" -> dots w' = dots w.
Proof.
  intros H1 H2. apply String.eqb_neq in H1, H2.
  subst w'. unfold after. rewrite registry_on_all_eq. cbn. by rewrite H1, H2.
Qed.

End Registry.

Section Pipeline.

Variables (dotFile : string) (w : World).

Lemma source_add_eq :
  source_on_all "add" dotFile w =
  (inr tt,
   {| files := files w;
      dots := dots w;
      pending := pending w ++
        [ReadFile template_path (TemplateRead dotFile (html_file dotFile))];
      log := log w ++
        [Spawn "dot" ["-Tsvg"; dotFile; "-o"; svg_file dotFile]] |}).
Proof. reflexivity. Qed.

Lemma source_unlink_eq :
  source_on_all "unlink" dotFile w =
  (inr tt,
   {| files := delete (html_file dotFile) (delete (svg_file dotFile) (files w));
      dots := dots w;
      pending := pending w;
      log := log w |}).
Proof.
  unfold source_on_all. cbn [String.eqb Ascii.eqb Bool.eqb]. cbn match.
  unfold_m.
  destruct (files w !! svg_file dotFile) as [svg|] eqn:Hs.
  - rewrite bool_decide_eq_true_2 by eauto. cbn. rewrite Hs. cbn.
    destruct (delete (svg_file dotFile) (files w) !! html_file dotFile)
      as [html|] eqn:Hh.
    + rewrite bool_decide_eq_true_2 by eauto. cbn. by rewrite Hh.
    + rewrite bool_decide_eq_false_2 by (by intros [? ?]). cbn.
      by rewrite (delete_id _ _ Hh).
  - rewrite bool_decide_eq_false_2 by (by intros [? ?]). cbn.
    rewrite (delete_id _ _ Hs).
    destruct (files w !! html_file dotFile) as [html|] eqn:Hh.
    + rewrite bool_decide_eq_true_2 by eauto. cbn. by rewrite Hh.
    + rewrite bool_decide_eq_false_2 by (by intros [? ?]). cbn.
      rewrite (delete_id _ _ Hh). by destruct w.
Qed.

Lemma source_other_eq (event : string) :
  event <> "add" -> event <> "unlink" ->
  source_on_all event dotFile w = (inr tt, w).
Proof.
  intros H1 H2. apply String.eqb_neq in H1, H2.
  unfold source_on_all. by rewrite H1, H2.
Qed.

Lemma template_read_failed_eq (h : string) (e : error) (template : string) :
  template_read dotFile h (Some e) template w =
  (inr tt,
   {| files := files w; dots := dots w; pending := pending w;
      log := log w ++ [ConsoleError e] |}).
Proof. reflexivity. Qed.

Lemma template_read_ok_eq (h template : string) :
  template_read dotFile h None template w =
  (inr tt,
   {| files := files w; dots := dots w;
      pending := pending w ++
        [WriteFile h
           (JS.replace placeholder
              (JS.replace ".dot" ".svg" (JS.basename dotFile)) template)
           (HtmlWritten h)];
      log := log w |}).
Proof. reflexivity. Qed.

Lemma html_written_eq (h : string) (err : option error) :
  html_written h err w =
  (inr tt,
   {| files := files w; dots := dots w; pending := pending w;
      log := log w ++
        [match err with
         | Some e => ConsoleError e
         | None => ConsoleLog (h +:+ " has been saved!")
         end] |}).
Proof. by destruct err. Qed.

End Pipeline.

Section Loop.

Lemma source_returns (event dotFile : string) (w : World) :
  returns (source_on_all event dotFile) w = true.
Proof.
  unfold returns.
  destruct (String.eqb_spec event "add") as [->|H1];
    [by rewrite source_add_eq|].
  destruct (String.eqb_spec event "unlink") as [->|H2];
    [by rewrite source_unlink_eq|].
  by rewrite source_other_eq.
Qed.

Lemma source_dots (event dotFile : string) (w : World) :
  dots (after (source_on_all event dotFile) w) = dots w.
Proof.
  unfold after.
  destruct (String.eqb_spec event "add") as [->|H1];
    [by rewrite source_add_eq|].
  destruct (String.eqb_spec event "unlink") as [->|H2];
    [by rewrite source_unlink_eq|].
  by rewrite source_other_eq.
Qed.

Lemma source_refreshes (event dotFile : string) (w : World) :
  refreshes (after (source_on_all event dotFile) w) = refreshes w.
Proof.
  unfold after, refreshes.
  destruct (String.eqb_spec event "add") as [->|H1].
  { rewrite source_add_eq. cbn. rewrite List.filter_app. cbn.
    by rewrite app_nil_r. }
  destruct (String.eqb_spec event "unlink") as [->|H2];
    [by rewrite source_unlink_eq|].
  by rewrite source_other_eq.
Qed.

Lemma callback_returns (cb : callback) (err : option error) (data : string)
    (w : World) :
  returns (run_callback cb err data) w = true.
Proof. by destruct cb, err. Qed.

Lemma callback_dots (cb : callback) (err : option error) (data : string)
    (w : World) :
  dots (after (run_callback cb err data) w) = dots w.
Proof. by destruct cb, err. Qed.

Lemma callback_refreshes (cb : callback) (err : option error)
    (data : string) (w : World) :
  refreshes (after (run_callback cb err data) w) = refreshes w.
Proof.
  destruct cb, err; unfold after, refreshes; cbn;
    rewrite ?List.filter_app; cbn; by rewrite ?app_nil_r.
Qed.

Lemma complete_returns (n : nat) (r : outcome) (w : World) :
  returns (complete n r) w = true.
Proof.
  unfold complete, returns.
  destruct (pending w !! n) as [[path cb|path data cb]|]; [| |done];
    destruct r; unfold_m; cbn;
    match goal with |- match (run_callback ?c ?e ?d ?x).1 with _ => _ end = _ =>
      exact (callback_returns c e d x) end.
Qed.

Lemma complete_dots (n : nat) (r : outcome) (w : World) :
  dots (after (complete n r) w) = dots w.
Proof.
  unfold complete, after.
  destruct (pending w !! n) as [[path cb|path data cb]|]; [| |done];
    destruct r; unfold_m; cbn;
    match goal with |- dots (run_callback ?c ?e ?d ?x).2 = _ =>
      exact (callback_dots c e d x) end.
Qed.

Lemma complete_refreshes (n : nat) (r : outcome) (w : World) :
  refreshes (after (complete n r) w) = refreshes w.
Proof.
  unfold complete, after.
  destruct (pending w !! n) as [[path cb|path data cb]|]; [| |done];
    destruct r; unfold_m; cbn;
    match goal with |- refreshes (run_callback ?c ?e ?d ?x).2 = _ =>
      exact (callback_refreshes c e d x) end.
Qed.

Lemma exec_returns (a : action) (w : World) : returns (exec a) w = true.
Proof.
  destruct a; cbn [exec];
    auto using source_returns, registry_returns, complete_returns.
Qed.

Lemma exec_dots (a : action) (w : World) :
  is_registry a = false -> dots (after (exec a) w) = dots w.
Proof.
  destruct a; cbn [exec is_registry]; intros H;
    auto using source_dots, complete_dots; discriminate.
Qed.

Lemma run_cons (a : action) (rest : list action) (w : World) :
  after (run (a :: rest)) w = after (run rest) (after (exec a) w).
Proof.
  pose proof (exec_returns a w) as H. unfold returns in H.
  unfold after. cbn [run]. unfold bind.
  destruct (exec a w) as [[e|[]] w1]; [discriminate | done].
Qed.

Lemma run_app (acts1 acts2 : list action) (w : World) :
  after (run (acts1 ++ acts2)) w = after (run acts2) (after (run acts1) w).
Proof.
  revert w. induction acts1 as [|a acts1 IH]; intros w; [done|].
  cbn [app]. by rewrite !run_cons, IH.
Qed.

Lemma run_returns (acts : list action) (w : World) :
  returns (run acts) w = true.
Proof.
  revert w. induction acts as [|a acts IH]; intros w; [done|].
  pose proof (exec_returns a w) as H. specialize (IH (after (exec a) w)).
  unfold returns, after in *. cbn [run]. unfold bind.
  by destruct (exec a w) as [[e|[]] w1].
Qed.

End Loop.

(** ** The registry and its refresh signal *)

(** C1, as stated: fails.  A second [add] of a wrapper page that is
    already listed leaves [dots] as it is and still sends a refresh
    signal. *)
Lemma refresh_on_duplicate_add :
  ~ refresh_only_on_change "add" "public/svg/a.html" listing_a.
Proof. unfold refresh_only_on_change. vm_compute. discriminate. Qed.

(** C1, amended: every event the registry watcher reports sends exactly
    one refresh signal for ["/"], whether it is an [add], an [unlink] or
    anything else, and whether or not it changes [dots]. *)
Theorem refresh_on_every_event (event path : string) (w : World) :
  let w' := after (registry_on_all event path) w in
  log w' = log w ++ [Refresh "/"] /\ refreshes w' = S (refreshes w).
Proof.
  cbn zeta. destruct (registry_frame event path w) as (_ & _ & Hlog).
  split; [done|]. unfold refreshes. rewrite Hlog, List.filter_app, length_app.
  cbn. lia.
Qed.

(** C4: an [add] for a path that is already listed and an [unlink] for
    a path that is not listed both leave [dots] exactly as it was. *)
Theorem registry_noop (path : string) (w : World) :
  (registry_key path ∈ dots w ->
   dots (after (registry_on_all "add" path) w) = dots w) /\
  (registry_key path ∉ dots w ->
   dots (after (registry_on_all "unlink" path) w) = dots w).
Proof.
  split; intros H.
  - by apply registry_add_present.
  - by apply registry_unlink_absent.
Qed.

Lemma registry_noop_witness :
  dots (after (registry_on_all "add" "public/svg/a.html") listing_a)
    = dots listing_a /\
  dots (after (registry_on_all "unlink" "public/svg/b.html") listing_a)
    = dots listing_a.
Proof.
  destruct (registry_noop "public/svg/a.html" listing_a) as [Hadd _].
  destruct (registry_noop "public/svg/b.html" listing_a) as [_ Hunlink].
  split.
  - apply Hadd. vm_compute. apply list_elem_of_here.
  - apply Hunlink. vm_compute. intros H.
    apply list_elem_of_singleton in H. discriminate.
Defined.

(** C5: an [unlink] of a listed path takes that one entry out and keeps
    the others in their order; an [add] of a path that is not listed,
    removed earlier or not, puts it at the end; so add a, add b, remove
    a, add a shows [b] before [a]. *)
Theorem registry_remove_then_readd :
  (forall path w l1 l2,
     dots w = l1 ++ registry_key path :: l2 -> registry_key path ∉ l1 ->
     dots (after (registry_on_all "unlink" path) w) = l1 ++ l2) /\
  (forall path w,
     registry_key path ∉ dots w ->
     dots (after (registry_on_all "add" path) w) = dots w ++ [registry_key path]) /\
  (forall disk,
     snapshot (after (run (take 1 scenario)) (initial disk)) = ["svg/a.html"] /\
     snapshot (after (run (take 2 scenario)) (initial disk))
       = ["svg/a.html"; "svg/b.html"] /\
     snapshot (after (run (take 3 scenario)) (initial disk)) = ["svg/b.html"] /\
     snapshot (after (run scenario) (initial disk))
       = ["svg/b.html"; "svg/a.html"]).
Proof.
  split; [|split].
  - intros path w l1 l2 Hd Hh. by apply registry_unlink_present.
  - intros path w Hh. by apply registry_add_absent.
  - intros disk. unfold snapshot, scenario. cbn [take].
    rewrite !run_cons. unfold after. cbn [run exec ret snd].
    rewrite !registry_on_all_eq. cbn [dots files pending log snd].
    repeat split; vm_compute; reflexivity.
Qed.

Lemma registry_remove_then_readd_witness :
  let w := after (run (take 2 scenario)) (initial ∅) in
  dots (after (registry_on_all "unlink" "public/svg/a.html") w)
    = [] ++ ["svg/b.html"] /\
  dots (after (registry_on_all "add" "public/svg/c.html") w)
    = dots w ++ ["svg/c.html"].
Proof.
  destruct registry_remove_then_readd as (Hrm & Hadd & _).
  split.
  - apply (Hrm "public/svg/a.html" _ [] ["svg/b.html"]).
    + vm_compute. reflexivity.
    + apply not_elem_of_nil.
  - apply (Hadd "public/svg/c.html"). vm_compute. intros H.
    apply elem_of_cons in H as [H|H]; [discriminate|].
    apply list_elem_of_singleton in H. discriminate.
Defined.

(** ** Schedules *)

Lemma exec_registry_step (a : action) (w : World) :
  registry_step (dots w) a (dots (after (exec a) w)).
Proof.
  destruct a as [event dotFile|event path|n r].
  - rewrite exec_dots by done. by constructor.
  - cbn [exec].
    destruct (decide (event = "add")) as [->|Hadd].
    { destruct (decide (registry_key path ∈ dots w)) as [Hin|Hout].
      - rewrite registry_add_present by done. by constructor.
      - rewrite registry_add_absent by done. by constructor. }
    destruct (decide (event = "unlink")) as [->|Hunlink].
    { destruct (Z_lt_ge_dec (JS.indexOf (registry_key path) (dots w)) 0)
        as [Hlt|Hge].
      - apply indexOf_absent in Hlt.
        rewrite registry_unlink_absent by done. by constructor.
      - destruct (indexOf_present (registry_key path) (dots w))
          as (l1 & l2 & Hd & Hh & _); [lia|].
        rewrite (registry_unlink_present _ _ _ l1 l2) by done.
        by constructor. }
    rewrite registry_other by done. by constructor.
  - rewrite exec_dots by done. by constructor.
Qed.

Section Schedules.

Lemma NoDup_middle (l1 l2 : list string) (h : string) :
  NoDup (l1 ++ h :: l2) -> NoDup (l1 ++ l2) /\ h ∉ l1 ++ l2.
Proof.
  rewrite !NoDup_app, NoDup_cons, not_elem_of_app.
  intros (H1 & H2 & H3 & H4). repeat split; try done.
  - intros x Hx Hx'. apply (H2 x Hx), elem_of_cons. by right.
  - intros Hh. apply (H2 h Hh), list_elem_of_here.
Qed.

Lemma step_NoDup (l l' : list string) (a : action) :
  registry_step l a l' -> NoDup l -> NoDup l'.
Proof.
  intros [path Hh|path Hh|path l1 l2 -> Hh|path Hh|event path H1 H2|b Hb] Hl;
    try done.
  - apply NoDup_app. split; [done|]. split; [|apply NoDup_singleton].
    intros x Hx Hx'. apply list_elem_of_singleton in Hx'. by subst.
  - by apply NoDup_middle in Hl as [Hl _].
Qed.

Lemma run_NoDup (acts : list action) (w : World) :
  NoDup (dots w) -> NoDup (dots (after (run acts) w)).
Proof.
  revert w. induction acts as [|a acts IH]; intros w Hw; [done|].
  rewrite run_cons. apply IH.
  exact (step_NoDup _ _ _ (exec_registry_step a w) Hw).
Qed.

(** After one step, is [h] listed?  Named by the event: yes after its
    [add], no after its [unlink]; otherwise as before. *)
Lemma step_member (l l' : list string) (a : action) (h : string) :
  registry_step l a l' -> NoDup l ->
  last_add (bool_decide (h ∈ l)) h [a] = bool_decide (h ∈ l').
Proof.
  intros [path Hh|path Hh|path l1 l2 -> Hh|path Hh|event path H1 H2|b Hb] Hl;
    cbn [last_add String.eqb Ascii.eqb Bool.eqb]; cbn match.
  - destruct (String.eqb_spec (registry_key path) h) as [<-|Hne].
    + symmetry. apply bool_decide_eq_true_2, elem_of_app. right.
      apply list_elem_of_here.
    + apply bool_decide_ext. rewrite elem_of_app, list_elem_of_singleton.
      intuition congruence.
  - destruct (String.eqb_spec (registry_key path) h) as [<-|Hne]; [|done].
    symmetry. by apply bool_decide_eq_true_2.
  - destruct (String.eqb_spec (registry_key path) h) as [<-|Hne].
    + symmetry. apply bool_decide_eq_false_2.
      by apply NoDup_middle in Hl as [_ Hl].
    + apply bool_decide_ext. rewrite !elem_of_app, elem_of_cons.
      intuition congruence.
  - destruct (String.eqb_spec (registry_key path) h) as [<-|Hne]; [|done].
    symmetry. by apply bool_decide_eq_false_2.
  - apply String.eqb_neq in H1, H2. rewrite H1, H2.
    by destruct (String.eqb (registry_key path) h).
  - by destruct b.
Qed.

Lemma last_add_cons (b : bool) (h : string) (a : action)
    (rest : list action) :
  last_add b h (a :: rest) = last_add (last_add b h [a]) h rest.
Proof.
  destruct a as [event dotFile|event path|n r]; cbn [last_add]; try done.
  destruct (String.eqb (registry_key path) h); [|done].
  destruct (String.eqb event "add"); [done|].
  by destruct (String.eqb event "unlink").
Qed.

Lemma run_last_add (acts : list action) (w : World) (h : string) :
  NoDup (dots w) ->
  bool_decide (h ∈ dots (after (run acts) w)) =
  last_add (bool_decide (h ∈ dots w)) h acts.
Proof.
  revert w. induction acts as [|a acts IH]; intros w Hw; [done|].
  pose proof (exec_registry_step a w) as Hstep.
  rewrite run_cons, last_add_cons, (step_member _ _ _ h Hstep Hw).
  apply IH. exact (step_NoDup _ _ _ Hstep Hw).
Qed.

Lemma tracked_add_same (seen : gset string) (k : string) :
  k ∈ seen ∪ {[k]}.
Proof. apply elem_of_union_r, elem_of_singleton. reflexivity. Qed.

Lemma tracked_add_other (seen : gset string) (k h : string) :
  k <> h -> h ∈ seen ∪ {[k]} <-> h ∈ seen.
Proof. rewrite elem_of_union, elem_of_singleton. intuition congruence. Qed.

Lemma tracked_remove_same (seen : gset string) (k : string) :
  k ∉ seen ∖ {[k]}.
Proof. rewrite elem_of_difference, elem_of_singleton. intuition. Qed.

Lemma tracked_remove_other (seen : gset string) (k h : string) :
  k <> h -> h ∈ seen ∖ {[k]} <-> h ∈ seen.
Proof. rewrite elem_of_difference, elem_of_singleton. intuition congruence. Qed.

(** On a stream a watcher can produce, the net count of a path is 1
    while the watcher tracks it and 0 while it does not. *)
Lemma ordered_net (acts : list action) (seen : gset string) (h : string) :
  ordered seen acts = true ->
  Z.b2z (last_add (bool_decide (h ∈ seen)) h acts) =
  Z.b2z (bool_decide (h ∈ seen)) + net h acts.
Proof.
  revert seen. induction acts as [|a acts IH]; intros seen Hord.
  { cbn. lia. }
  destruct a as [event dotFile|event path|n r]; cbn [ordered last_add net net_one] in *;
    [rewrite (IH seen Hord); lia | | rewrite (IH seen Hord); lia].
  destruct (String.eqb event "add") eqn:Eadd;
    [|destruct (String.eqb event "unlink") eqn:Eunlink].
  - apply andb_true_iff in Hord as [Hnew Hord].
    apply bool_decide_eq_true_1 in Hnew. specialize (IH _ Hord).
    destruct (String.eqb_spec (registry_key path) h) as [<-|Hne].
    + rewrite bool_decide_eq_true_2 in IH by apply tracked_add_same.
      rewrite (bool_decide_eq_false_2 (registry_key path ∈ seen)) by done.
      rewrite IH. cbn. lia.
    + rewrite (bool_decide_ext _ _ (tracked_add_other seen _ h Hne)) in IH.
      rewrite IH. lia.
  - apply andb_true_iff in Hord as [Hold Hord].
    apply bool_decide_eq_true_1 in Hold. specialize (IH _ Hord).
    destruct (String.eqb_spec (registry_key path) h) as [<-|Hne].
    + rewrite bool_decide_eq_false_2 in IH by apply tracked_remove_same.
      rewrite (bool_decide_eq_true_2 (registry_key path ∈ seen)) by done.
      rewrite IH. cbn. lia.
    + rewrite (bool_decide_ext _ _ (tracked_remove_other seen _ h Hne)) in IH.
      rewrite IH. lia.
  - destruct (String.eqb (registry_key path) h);
      rewrite (IH seen Hord); lia.
Qed.

End Schedules.

Section Order.

Lemma filter_prefix (f : string -> bool) (l1 l2 : list string) :
  l1 `prefix_of` l2 -> List.filter f l1 `prefix_of` List.filter f l2.
Proof. intros [k ->]. rewrite List.filter_app. by eexists. Qed.

Lemma filter_swap (f g : string -> bool) (l : list string) :
  List.filter f (List.filter g l) = List.filter g (List.filter f l).
Proof.
  induction l as [|x l IH]; [done|]. cbn [List.filter].
  destruct (f x) eqn:Ef, (g x) eqn:Eg; cbn [List.filter];
    rewrite ?Ef, ?Eg, IH; done.
Qed.

Lemma kept_cons (a : action) (rest : list action) (l : list string) :
  kept (a :: rest) l =
  List.filter (fun h => negb (unlinks h a)) (kept rest l).
Proof.
  unfold kept, removed_in. induction l as [|x l IH]; [done|].
  cbn [List.filter]. rewrite IH. cbn [existsb].
  destruct (unlinks x a) eqn:E; destruct (existsb (unlinks x) rest);
    cbn [negb orb List.filter]; rewrite ?E; done.
Qed.

Lemma step_kept (l l' : list string) (a : action) :
  registry_step l a l' ->
  List.filter (fun h => negb (unlinks h a)) l `prefix_of`
  List.filter (fun h => negb (unlinks h a)) l'.
Proof.
  intros [path Hh|path Hh|path l1 l2 -> Hh|path Hh|event path H1 H2|b Hb];
    try done.
  - apply filter_prefix. by eexists.
  - rewrite !List.filter_app. cbn [List.filter unlinks].
    rewrite !String.eqb_refl. by cbn.
Qed.

Lemma run_kept (acts : list action) (w : World) :
  kept acts (dots w) `prefix_of` kept acts (dots (after (run acts) w)).
Proof.
  revert w. induction acts as [|a acts IH]; intros w; [done|].
  rewrite run_cons, !kept_cons.
  etrans; [|apply filter_prefix, IH].
  pose proof (step_kept _ _ _ (exec_registry_step a w)) as Hstep.
  apply (filter_prefix (fun h => negb (removed_in acts h))) in Hstep.
  unfold kept. by rewrite !(filter_swap (fun h => negb (unlinks h a))).
Qed.

(** [dots] after a schedule is a function of [dots] before it and of
    the registry events in it. *)
Lemma run_registry_only (acts : list action) (w1 w2 : World) :
  dots w1 = dots w2 ->
  dots (after (run acts) w1) =
  dots (after (run (List.filter is_registry acts)) w2).
Proof.
  revert w1 w2. induction acts as [|a acts IH]; intros w1 w2 Hd; [done|].
  cbn [List.filter]. destruct (is_registry a) eqn:E.
  - rewrite !run_cons. apply IH.
    destruct a as [| event path |]; try discriminate.
    unfold after. cbn [exec]. rewrite !registry_on_all_eq. cbn [snd dots].
    by rewrite Hd.
  - rewrite run_cons. apply IH. by rewrite exec_dots.
Qed.

End Order.

(** C2, as stated: fails.  Two [add] events in a row for one path leave
    it listed, once, with a net count of two. *)
Lemma listed_with_even_net :
  ~ listed_iff_net_odd [RegistryEvent "add" "public/svg/a.html";
                        RegistryEvent "add" "public/svg/a.html"].
Proof.
  intros H. specialize (H "svg/a.html"). destruct H as [H _].
  assert (Hodd : Z.odd 2 = true); [|discriminate Hodd].
  apply H. vm_compute. apply list_elem_of_here.
Qed.

(** C2, amended: on a stream in which every [add] names a path the
    watcher is not tracking and every [unlink] one it is tracking, what
    is listed at the end is what has an odd net count of [add] over
    [unlink] events.  On any stream whatever, a path is listed at the
    end exactly when the last [add] or [unlink] that names it is an
    [add], no path is listed twice, and an [unlink] of a path that is
    not listed leaves [dots] as it was. *)
Theorem listed_iff_net_odd_ordered (acts : list action)
    (disk : gmap string string) :
  let w := after (run acts) (initial disk) in
  (ordered ∅ acts = true ->
   forall h, h ∈ dots w <-> Z.odd (net h acts) = true) /\
  (forall h, h ∈ dots w <-> last_add false h acts = true) /\
  NoDup (dots w) /\
  (forall path w0, registry_key path ∉ dots w0 ->
     dots (after (registry_on_all "unlink" path) w0) = dots w0).
Proof.
  cbn zeta.
  assert (Hlast : forall h,
    h ∈ dots (after (run acts) (initial disk)) <-> last_add false h acts = true).
  { intros h.
    pose proof (run_last_add acts (initial disk) h NoDup_nil_2) as H.
    cbn [initial dots] in H.
    rewrite (bool_decide_eq_false_2 (h ∈ [])) in H by apply not_elem_of_nil.
    rewrite <- H. symmetry. apply bool_decide_eq_true. }
  split; [|split; [done|split]].
  - intros Hord h. rewrite Hlast.
    pose proof (ordered_net acts ∅ h Hord) as H.
    rewrite (bool_decide_eq_false_2 (h ∈ ∅)) in H by apply not_elem_of_empty.
    cbn [Z.b2z] in H. rewrite Z.add_0_l in H. rewrite <- H.
    by destruct (last_add false h acts).
  - apply run_NoDup. apply NoDup_nil_2.
  - intros path w0 Hout. by apply registry_unlink_absent.
Qed.

Lemma listed_iff_net_odd_ordered_witness :
  ordered ∅ scenario = true /\
  ("svg/a.html" ∈ dots (after (run scenario) (initial ∅)) <->
   Z.odd (net "svg/a.html" scenario) = true) /\
  dots (after (registry_on_all "unlink" "public/svg/c.html") listing_a)
    = dots listing_a.
Proof.
  destruct (listed_iff_net_odd_ordered scenario ∅) as (Hodd & _ & _ & Hgone).
  assert (Hord : ordered ∅ scenario = true) by (vm_compute; reflexivity).
  split; [exact Hord|]. split.
  - apply (Hodd Hord).
  - apply Hgone. vm_compute. intros H.
    apply list_elem_of_singleton in H. discriminate.
Defined.

(** C3: from an empty registry no schedule ever lists a path twice, and
    the entries that no later [unlink] names stay in the order in which
    they were appended, ahead of everything appended after them,
    whatever else the schedule holds; the page shows [dots] in that
    order. *)
Theorem registry_order_kept (disk : gmap string string)
    (before later : list action) :
  let w1 := after (run before) (initial disk) in
  let w2 := after (run later) w1 in
  NoDup (snapshot w2) /\
  kept later (snapshot w1) `prefix_of` kept later (snapshot w2) /\
  snapshot w2 = dots w2.
Proof.
  cbn zeta. unfold snapshot. split; [|split; [|done]].
  - rewrite <- run_app. apply run_NoDup, NoDup_nil_2.
  - apply run_kept.
Qed.

(** C8: the source watcher callback and the two callbacks it hands to
    [fs] never write [dots] and never signal a refresh; over a whole
    schedule [dots] is what the registry events of the schedule alone
    make it. *)
Theorem pipeline_leaves_registry :
  (forall event dotFile w,
     dots (after (source_on_all event dotFile) w) = dots w /\
     refreshes (after (source_on_all event dotFile) w) = refreshes w) /\
  (forall dotFile h err template w,
     dots (after (template_read dotFile h err template) w) = dots w /\
     refreshes (after (template_read dotFile h err template) w) = refreshes w) /\
  (forall h err w,
     dots (after (html_written h err) w) = dots w /\
     refreshes (after (html_written h err) w) = refreshes w) /\
  (forall n r w,
     dots (after (complete n r) w) = dots w /\
     refreshes (after (complete n r) w) = refreshes w) /\
  (forall acts w,
     dots (after (run acts) w) =
     dots (after (run (List.filter is_registry acts)) w)).
Proof.
  repeat split.
  - apply source_dots.
  - apply source_refreshes.
  - exact (callback_dots (TemplateRead dotFile h) err template w).
  - exact (callback_refreshes (TemplateRead dotFile h) err template w).
  - exact (callback_dots (HtmlWritten h) err EmptyString w).
  - exact (callback_refreshes (HtmlWritten h) err EmptyString w).
  - apply complete_dots.
  - apply complete_refreshes.
  - intros acts w. by apply run_registry_only.
Qed.

(** ** The render pipeline *)

Section Completion.

Variables (n : nat) (w : World).

Let settled : World :=
  {| files := files w; dots := dots w;
     pending := delete n (pending w); log := log w |}.

Lemma complete_read_eq (path : string) (cb : callback) (r : outcome) :
  pending w !! n = Some (ReadFile path cb) ->
  complete n r w =
  match r with
  | Failed e => run_callback cb (Some e) EmptyString settled
  | Done data => run_callback cb None data settled
  end.
Proof. intros H. unfold complete. rewrite H. by destruct r. Qed.

Lemma complete_write_eq (path data : string) (cb : callback) (r : outcome) :
  pending w !! n = Some (WriteFile path data cb) ->
  complete n r w =
  match r with
  | Failed e => run_callback cb (Some e) EmptyString settled
  | Done _ =>
      run_callback cb None EmptyString
        {| files := <[path := data]> (files w); dots := dots w;
           pending := delete n (pending w); log := log w |}
  end.
Proof. intros H. unfold complete. rewrite H. by destruct r. Qed.

End Completion.

Section Occurrences.

Lemma occurrences_eq (pat s : string) :
  JS.occurrences pat s =
  ((match JS.strip_prefix pat s with Some _ => 1 | None => 0 end) +
   match s with
   | EmptyString => 0
   | String _ s' => JS.occurrences pat s'
   end)%nat.
Proof. by destruct s. Qed.

Lemma occurrences_here (pat pre post : string) :
  (1 <= JS.occurrences pat (pre +:+ pat +:+ post))%nat.
Proof.
  induction pre as [|c pre IH].
  - rewrite append_nil_l, occurrences_eq, strip_prefix_app. lia.
  - rewrite append_cons. cbn [JS.occurrences]. lia.
Qed.

(** A text that holds the pattern once splits around it in one way
    only. *)
Lemma split_first_once (pat pre post : string) :
  JS.occurrences pat (pre +:+ pat +:+ post) = 1%nat ->
  JS.split_first pat (pre +:+ pat +:+ post) = Some (pre, post).
Proof.
  induction pre as [|c pre IH]; intros H.
  - rewrite append_nil_l.
    destruct (pat +:+ post) eqn:E; cbn [JS.split_first];
      by rewrite <- E, strip_prefix_app.
  - rewrite append_cons in *. cbn [JS.split_first].
    cbn [JS.occurrences] in H.
    pose proof (occurrences_here pat pre post) as Hge.
    destruct (JS.strip_prefix pat (String c (pre +:+ pat +:+ post)));
      [lia|].
    rewrite IH; [done | lia].
Qed.

End Occurrences.

(** C6: for a description file whose base name is [pipeline.dot] the
    image goes to [./public/svg/pipeline.svg] and the page to
    [./public/svg/pipeline.html]; the callback starts [dot] on the
    image path and asks for the template; when the template comes back
    as [pre], placeholder, [post] and holds the placeholder that once,
    the callback asks to write [pre], [pipeline.svg], [post] to the
    page path, and once that write is through the page holds just
    that. *)
Theorem pipeline_dot_added (dotFile pre post : string) (w : World) :
  let template := pre +:+ placeholder +:+ post in
  let page := pre +:+ "pipeline.svg" +:+ post in
  JS.basename dotFile = "pipeline.dot" ->
  JS.occurrences placeholder template = 1%nat ->
  svg_file dotFile = "./public/svg/pipeline.svg" /\
  html_file dotFile = "./public/svg/pipeline.html" /\
  (let w1 := after (source_on_all "add" dotFile) w in
   log w1 = log w ++
     [Spawn "dot" ["-Tsvg"; dotFile; "-o"; "./public/svg/pipeline.svg"]] /\
   pending w1 = pending w ++
     [ReadFile template_path
        (TemplateRead dotFile "./public/svg/pipeline.html")]) /\
  (forall w2,
     pending (after (template_read dotFile "./public/svg/pipeline.html"
                       None template) w2) =
     pending w2 ++
       [WriteFile "./public/svg/pipeline.html" page
          (HtmlWritten "./public/svg/pipeline.html")]) /\
  (forall done,
     let w3 := after (run (add_then_complete dotFile (length (pending w))
                             (Done template) (Done done))) w in
     files w3 !! "./public/svg/pipeline.html" = Some page /\
     pending w3 = pending w).
Proof.
  intros template page Hbase Hocc.
  assert (Hsvg : svg_file dotFile = "./public/svg/pipeline.svg")
    by (unfold svg_file; rewrite Hbase; reflexivity).
  assert (Hhtml : html_file dotFile = "./public/svg/pipeline.html")
    by (unfold html_file; rewrite Hbase; reflexivity).
  assert (Hrepl : JS.replace placeholder
            (JS.replace ".dot" ".svg" (JS.basename dotFile)) template = page).
  { rewrite Hbase. unfold JS.replace at 1. subst template.
    by rewrite split_first_once. }
  split; [done|]. split; [done|]. split; [|split].
  - cbn zeta. unfold after. rewrite source_add_eq. cbn [snd log pending].
    by rewrite Hsvg, Hhtml.
  - intros w2. unfold after. rewrite template_read_ok_eq. cbn [snd pending].
    by rewrite Hrepl.
  - intros done. cbn zeta. unfold add_then_complete.
    rewrite !run_cons.
    set (w1 := after (exec (SourceEvent "add" dotFile)) w).
    assert (Hw1 : pending w1 !! length (pending w) =
              Some (ReadFile template_path
                      (TemplateRead dotFile (html_file dotFile)))).
    { subst w1. unfold after. cbn [exec]. rewrite source_add_eq.
      cbn [snd pending]. by apply list_lookup_middle. }
    set (w2 := after (exec (Complete (length (pending w)) (Done template))) w1).
    assert (Hw2 : pending w2 = pending w ++
              [WriteFile (html_file dotFile) page
                 (HtmlWritten (html_file dotFile))]).
    { subst w2. unfold after. cbn [exec].
      rewrite (complete_read_eq _ _ _ _ _ Hw1). cbn [run_callback].
      rewrite template_read_ok_eq. cbn [snd pending]. rewrite Hrepl.
      subst w1. unfold after. cbn [exec]. rewrite source_add_eq.
      cbn [snd pending]. by rewrite delete_middle, app_nil_r. }
    assert (Hw2' : pending w2 !! length (pending w) =
              Some (WriteFile (html_file dotFile) page
                      (HtmlWritten (html_file dotFile))))
      by (rewrite Hw2; by apply list_lookup_middle).
    assert (Hnil : forall x, after (run []) x = x) by done.
    rewrite !Hnil. unfold after. cbn [exec].
    rewrite (complete_write_eq _ _ _ _ _ _ Hw2'). cbn [run_callback].
    rewrite html_written_eq. cbn [snd files pending].
    rewrite Hw2, delete_middle, app_nil_r, Hhtml. split; [|done].
    apply lookup_insert_eq.
Qed.

Lemma pipeline_dot_added_witness :
  svg_file "/tmp/dots/pipeline.dot" = "./public/svg/pipeline.svg" /\
  html_file "/tmp/dots/pipeline.dot" = "./public/svg/pipeline.html" /\
  files (after (run (add_then_complete "/tmp/dots/pipeline.dot" 0
                       (Done "<img src='{{ svg_file_path }}'>")
                       (Done EmptyString))) (initial ∅))
    !! "./public/svg/pipeline.html" = Some "<img src='pipeline.svg'>".
Proof.
  destruct (pipeline_dot_added "/tmp/dots/pipeline.dot"
              "<img src='" "'>" (initial ∅))
    as (Hsvg & Hhtml & _ & _ & Hrun); [reflexivity | reflexivity |].
  split; [exact Hsvg|]. split; [exact Hhtml|].
  exact (proj1 (Hrun EmptyString)).
Defined.

(** C7: on [unlink] the callback ends without throwing and without a
    word on the console; the image path and the page path are both
    absent afterwards, whether or not they were there before, and no
    other file is touched; a second [unlink] ends as quietly and
    changes nothing.  The guard is what makes it so: [fs.rmSync] alone
    throws when the file is not there. *)
Theorem unlink_deletes_artifacts (dotFile : string) (w : World) :
  let m := source_on_all "unlink" dotFile in
  returns m w = true /\
  log (after m w) = log w /\
  pending (after m w) = pending w /\
  files (after m w) =
    delete (html_file dotFile) (delete (svg_file dotFile) (files w)) /\
  files (after m w) !! svg_file dotFile = None /\
  files (after m w) !! html_file dotFile = None /\
  (forall path, path <> svg_file dotFile -> path <> html_file dotFile ->
     files (after m w) !! path = files w !! path) /\
  returns m (after m w) = true /\
  files (after m (after m w)) = files (after m w) /\
  (forall path w0, files w0 !! path = None ->
     returns (fs.rmSync path) w0 = false).
Proof.
  cbn zeta. unfold after, returns. rewrite !source_unlink_eq. cbn [fst snd].
  cbn [files log pending].
  assert (Hsvg : delete (html_file dotFile)
                   (delete (svg_file dotFile) (files w))
                 !! svg_file dotFile = None).
  { destruct (decide (svg_file dotFile = html_file dotFile)) as [E|E].
    - rewrite E. apply lookup_delete_eq.
    - rewrite lookup_delete_ne by done. apply lookup_delete_eq. }
  repeat split; try done.
  - apply lookup_delete_eq.
  - intros path H1 H2. by rewrite !lookup_delete_ne.
  - rewrite (delete_id _ _ Hsvg). apply delete_id, lookup_delete_eq.
  - intros path w0 H. unfold fs.rmSync. by rewrite H.
Qed.

Lemma unlink_deletes_artifacts_witness :
  returns (fs.rmSync "./public/svg/pipeline.svg") (initial ∅) = false /\
  returns (source_on_all "unlink" "/tmp/dots/pipeline.dot") (initial ∅) = true.
Proof.
  destruct (unlink_deletes_artifacts "/tmp/dots/pipeline.dot" (initial ∅))
    as (Hret & _ & _ & _ & _ & _ & _ & _ & _ & Hrm).
  split; [|exact Hret]. apply Hrm. reflexivity.
Defined.

(** C9: [replace] touches the first [.dot] of the base name and nothing
    after it, so [a.dot.dot] gives [a.svg.dot] and [a.html.dot]; a base
    name without [.dot], such as [graphdot], is left as it is, and the
    image path and the page path are then one and the same. *)
Theorem artifact_names_first_dot_only :
  (forall pre post,
     JS.occurrences ".dot" pre = 0%nat ->
     JS.replace ".dot" ".svg" (pre +:+ ".dot" +:+ post)
       = pre +:+ ".svg" +:+ post /\
     JS.replace ".dot" ".html" (pre +:+ ".dot" +:+ post)
       = pre +:+ ".html" +:+ post) /\
  (forall dotFile,
     JS.basename dotFile = "a.dot.dot" ->
     svg_file dotFile = "./public/svg/a.svg.dot" /\
     html_file dotFile = "./public/svg/a.html.dot") /\
  (forall dotFile,
     JS.occurrences ".dot" (JS.basename dotFile) = 0%nat ->
     svg_file dotFile = svgDir +:+ JS.basename dotFile /\
     html_file dotFile = svgDir +:+ JS.basename dotFile /\
     svg_file dotFile = html_file dotFile) /\
  svg_file "./graphdot" = "./public/svg/graphdot" /\
  html_file "./graphdot" = "./public/svg/graphdot".
Proof.
  split; [|split; [|split; [|split; reflexivity]]].
  - intros pre post H. split; by apply replace_first_dot.
  - intros dotFile H. unfold svg_file, html_file. rewrite H. by split.
  - intros dotFile H. unfold svg_file, html_file.
    by rewrite !replace_absent.
Qed.

Lemma artifact_names_first_dot_only_witness :
  JS.replace ".dot" ".svg" ("0.00.01-play" +:+ ".dot" +:+ ".dot.bak")
    = "0.00.01-play" +:+ ".svg" +:+ ".dot.bak" /\
  svg_file "/tmp/dots/a.dot.dot" = "./public/svg/a.svg.dot" /\
  svg_file "/tmp/dots/graphdot" = html_file "/tmp/dots/graphdot".
Proof.
  destruct artifact_names_first_dot_only as (Hfirst & Htwice & Hnone & _).
  split; [|split].
  - apply (Hfirst "0.00.01-play" ".dot.bak"). reflexivity.
  - apply (Htwice "/tmp/dots/a.dot.dot"). reflexivity.
  - apply (Hnone "/tmp/dots/graphdot"). reflexivity.
Defined.

(** C10: when the template read fails, its callback puts the error on
    the console and does nothing else: it issues no write and touches
    no file.  An [add] whose read fails therefore leaves every file,
    the page included, as it was, with nothing outstanding that was not
    outstanding before. *)
Theorem read_failure_writes_nothing (dotFile : string) (e : error)
    (w : World) :
  (forall h template,
     let w' := after (template_read dotFile h (Some e) template) w in
     files w' = files w /\ pending w' = pending w /\
     log w' = log w ++ [ConsoleError e]) /\
  (let w' := after (run (add_then_read dotFile (length (pending w))
                           (Failed e))) w in
   files w' = files w /\
   files w' !! html_file dotFile = files w !! html_file dotFile /\
   pending w' = pending w /\
   List.filter is_write (pending w') = List.filter is_write (pending w) /\
   log w' = log w ++
     [Spawn "dot" ["-Tsvg"; dotFile; "-o"; svg_file dotFile];
      ConsoleError e]).
Proof.
  split.
  - intros h template. cbn zeta. unfold after.
    by rewrite template_read_failed_eq.
  - cbn zeta. unfold add_then_read. rewrite !run_cons.
    set (w1 := after (exec (SourceEvent "add" dotFile)) w).
    assert (Hw1 : w1 =
      {| files := files w; dots := dots w;
         pending := pending w ++
           [ReadFile template_path (TemplateRead dotFile (html_file dotFile))];
         log := log w ++
           [Spawn "dot" ["-Tsvg"; dotFile; "-o"; svg_file dotFile]] |})
      by done.
    assert (Hp : pending w1 !! length (pending w) =
              Some (ReadFile template_path
                      (TemplateRead dotFile (html_file dotFile))))
      by (rewrite Hw1; by apply list_lookup_middle).
    assert (Hnil : forall x, after (run []) x = x) by done.
    rewrite Hnil. unfold after. cbn [exec].
    rewrite (complete_read_eq _ _ _ _ _ Hp). cbn [run_callback].
    rewrite template_read_failed_eq. cbn [snd files pending log].
    rewrite Hw1. cbn [files pending log].
    rewrite delete_middle, app_nil_r, <- app_assoc. done.
Qed.

(** * Further properties of the two callbacks *)

(** ** The two watchers do not reach into each other *)

Section Decoupling.

Lemma callback_disk (cb : callback) (err : option error) (data : string)
    (w1 w2 : World) :
  files w1 = files w2 -> pending w1 = pending w2 ->
  files (after (run_callback cb err data) w1) =
    files (after (run_callback cb err data) w2) /\
  pending (after (run_callback cb err data) w1) =
    pending (after (run_callback cb err data) w2).
Proof.
  intros Hf Hp. destruct cb, err; unfold after; cbn [run_callback];
    rewrite ?template_read_failed_eq, ?template_read_ok_eq, ?html_written_eq;
    cbn [snd files pending]; by rewrite ?Hf, ?Hp.
Qed.

Lemma complete_disk (n : nat) (r : outcome) (w1 w2 : World) :
  files w1 = files w2 -> pending w1 = pending w2 ->
  files (after (complete n r) w1) = files (after (complete n r) w2) /\
  pending (after (complete n r) w1) = pending (after (complete n r) w2).
Proof.
  intros Hf Hp. unfold after.
  destruct (pending w1 !! n) as [[path cb|path data cb]|] eqn:E1;
    pose proof E1 as E2; rewrite Hp in E2.
  - rewrite (complete_read_eq _ _ _ _ r E1), (complete_read_eq _ _ _ _ r E2).
    destruct r; apply callback_disk; cbn [files pending]; by rewrite ?Hf, ?Hp.
  - rewrite (complete_write_eq _ _ _ _ _ r E1),
      (complete_write_eq _ _ _ _ _ r E2).
    destruct r; apply callback_disk; cbn [files pending]; by rewrite ?Hf, ?Hp.
  - unfold complete. by rewrite E1, E2.
Qed.

Lemma exec_pipeline_disk (a : action) (w1 w2 : World) :
  is_registry a = false ->
  files w1 = files w2 -> pending w1 = pending w2 ->
  files (after (exec a) w1) = files (after (exec a) w2) /\
  pending (after (exec a) w1) = pending (after (exec a) w2).
Proof.
  intros Ha Hf Hp. destruct a as [event dotFile| |n r]; [|discriminate|].
  - cbn [exec]. unfold after.
    destruct (String.eqb_spec event "add") as [->|H1];
      [rewrite !source_add_eq; cbn; by rewrite Hf, Hp|].
    destruct (String.eqb_spec event "unlink") as [->|H2];
      [rewrite !source_unlink_eq; cbn; by rewrite Hf, Hp|].
    by rewrite !source_other_eq.
  - by apply complete_disk.
Qed.

Lemma run_pipeline_only (acts : list action) (w1 w2 : World) :
  files w1 = files w2 -> pending w1 = pending w2 ->
  files (after (run acts) w1) =
    files (after (run (List.filter is_pipeline acts)) w2) /\
  pending (after (run acts) w1) =
    pending (after (run (List.filter is_pipeline acts)) w2).
Proof.
  revert w1 w2. induction acts as [|a acts IH]; intros w1 w2 Hf Hp; [done|].
  cbn [List.filter].
  assert (Ha : is_pipeline a = negb (is_registry a)) by done. rewrite Ha.
  destruct (is_registry a) eqn:E; cbn [negb].
  - rewrite run_cons. destruct a as [|event path|]; try discriminate.
    destruct (registry_frame event path w1) as (Hf1 & Hp1 & _).
    apply IH; cbn [exec]; congruence.
  - rewrite !run_cons.
    destruct (exec_pipeline_disk a w1 w2 E Hf Hp) as [Hf' Hp'].
    by apply IH.
Qed.

End Decoupling.

(** X1: the registry callback never throws and never touches a file or
    an outstanding operation; what is on disk and what is outstanding
    after a schedule is what the schedule without its registry events
    leaves. *)
Theorem registry_leaves_pipeline :
  (forall event path w,
     returns (registry_on_all event path) w = true /\
     files (after (registry_on_all event path) w) = files w /\
     pending (after (registry_on_all event path) w) = pending w) /\
  (forall acts w,
     files (after (run acts) w) =
       files (after (run (List.filter is_pipeline acts)) w) /\
     pending (after (run acts) w) =
       pending (after (run (List.filter is_pipeline acts)) w)).
Proof.
  split.
  - intros event path w. split; [apply registry_returns|].
    destruct (registry_frame event path w) as (Hf & Hp & _). by split.
  - intros acts w. by apply run_pipeline_only.
Qed.

(** ** Counting signals and renderer runs *)

Section Counting.

Lemma callback_spawns (cb : callback) (err : option error) (data : string)
    (w : World) :
  spawns (after (run_callback cb err data) w) = spawns w.
Proof.
  destruct cb, err; unfold after, spawns; cbn;
    rewrite ?List.filter_app; cbn; by rewrite ?app_nil_r.
Qed.

Lemma complete_spawns (n : nat) (r : outcome) (w : World) :
  spawns (after (complete n r) w) = spawns w.
Proof.
  unfold after.
  destruct (pending w !! n) as [[path cb|path data cb]|] eqn:E.
  - rewrite (complete_read_eq _ _ _ _ r E).
    destruct r; (etrans; [apply (callback_spawns cb) | done]).
  - rewrite (complete_write_eq _ _ _ _ _ r E).
    destruct r; (etrans; [apply (callback_spawns cb) | done]).
  - unfold complete. by rewrite E.
Qed.

Lemma exec_spawns (a : action) (w : World) :
  spawns (after (exec a) w) =
  (spawns w + if is_source_add a then 1 else 0)%nat.
Proof.
  destruct a as [event dotFile|event path|n r]; cbn [exec is_source_add].
  - unfold after.
    destruct (String.eqb_spec event "add") as [->|H1].
    { rewrite source_add_eq. unfold spawns. cbn [snd log].
      rewrite List.filter_app, length_app. cbn. lia. }
    destruct (String.eqb_spec event "unlink") as [->|H2].
    { rewrite source_unlink_eq. unfold spawns. cbn. lia. }
    rewrite source_other_eq by done. cbn. lia.
  - destruct (registry_frame event path w) as (_ & _ & Hlog).
    unfold spawns. rewrite Hlog, List.filter_app, length_app. cbn. lia.
  - rewrite complete_spawns. lia.
Qed.


End Counting.


(** X3: over any schedule the renderer is started once for each [add]
    the source watcher reported, with the description file and the
    image path as arguments, and at no other time: not on [unlink],
    not on a registry event, not when a read or a write completes. *)
Theorem spawns_count_source_adds :
  (forall acts w,
     spawns (after (run acts) w) =
     (spawns w + length (List.filter is_source_add acts))%nat) /\
  (forall dotFile w,
     log (after (source_on_all "add" dotFile) w) =
     log w ++ [Spawn "dot" ["-Tsvg"; dotFile; "-o"; svg_file dotFile]]).
Proof.
  split.
  - intros acts. induction acts as [|a acts IH]; intros w.
    { cbn. unfold after. cbn. lia. }
    rewrite run_cons, IH, exec_spawns. cbn [List.filter].
    destruct (is_source_add a); cbn [length]; lia.
  - intros dotFile w. unfold after. by rewrite source_add_eq.
Qed.

(** ** Composing registry events *)

Section Composition.

Lemma last_add_from_add (b : bool) (h : string) (acts : list action) :
  last_add b h acts = true ->
  b = true \/
  exists path, RegistryEvent "add" path ∈ acts /\ registry_key path = h.
Proof.
  revert b. induction acts as [|a acts IH]; intros b H; [by left|].
  destruct a as [event dotFile|event path|n r]; cbn [last_add] in H.
  - destruct (IH _ H) as [?|(p & Hin & Hp)]; [by left|].
    right. exists p. split; [by apply list_elem_of_further | done].
  - destruct (String.eqb_spec (registry_key path) h) as [Hk|_].
    + destruct (String.eqb_spec event "add") as [->|_].
      { right. exists path. split; [apply list_elem_of_here | done]. }
      assert (Hrest : exists b', last_add b' h acts = true /\ (b' = true -> b = true)).
      { destruct (String.eqb event "unlink"); [exists false | exists b];
          split; try done. }
      destruct Hrest as (b' & Hb' & Himp).
      destruct (IH _ Hb') as [?|(p & Hin & Hp)]; [left; auto|].
      right. exists p. split; [by apply list_elem_of_further | done].
    + destruct (IH _ H) as [?|(p & Hin & Hp)]; [by left|].
      right. exists p. split; [by apply list_elem_of_further | done].
  - destruct (IH _ H) as [?|(p & Hin & Hp)]; [by left|].
    right. exists p. split; [by apply list_elem_of_further | done].
Qed.

Lemma unlink_gone (path : string) (w : World) :
  NoDup (dots w) ->
  registry_key path ∉ dots (after (registry_on_all "unlink" path) w).
Proof.
  intros Hnd.
  destruct (decide (registry_key path ∈ dots w)) as [Hin|Hout].
  - destruct (indexOf_present (registry_key path) (dots w))
      as (l1 & l2 & Hd & Hh & _).
    { pose proof (indexOf_ge (registry_key path) (dots w)).
      destruct (Z_lt_ge_dec (JS.indexOf (registry_key path) (dots w)) 0)
        as [Hlt|Hge]; [|lia].
      by apply indexOf_absent in Hlt. }
    rewrite (registry_unlink_present _ _ _ l1 l2) by done.
    rewrite Hd in Hnd. by apply NoDup_middle in Hnd as [_ Hnd].
  - by rewrite registry_unlink_absent.
Qed.

Lemma add_listed (path : string) (w : World) :
  registry_key path ∈ dots (after (registry_on_all "add" path) w).
Proof.
  destruct (decide (registry_key path ∈ dots w)) as [Hin|Hout].
  - by rewrite registry_add_present.
  - rewrite registry_add_absent by done. apply elem_of_app. right.
    apply list_elem_of_here.
Qed.

End Composition.

(** X4: an [add] of a page that is not listed followed by its [unlink]
    puts [dots] back exactly as it was; an [unlink] of a listed page
    followed by its [add] does not: the entry comes back last. *)
Theorem registry_add_unlink_round_trip (path : string) (w : World) :
  (registry_key path ∉ dots w ->
   dots (after (run [RegistryEvent "add" path;
                     RegistryEvent "unlink" path]) w) = dots w) /\
  (forall l1 l2,
     dots w = l1 ++ registry_key path :: l2 ->
     registry_key path ∉ l1 -> registry_key path ∉ l2 ->
     dots (after (run [RegistryEvent "unlink" path;
                       RegistryEvent "add" path]) w)
       = l1 ++ l2 ++ [registry_key path]).
Proof.
  split.
  - intros Hout. rewrite !run_cons. cbn [exec].
    assert (Hadd : dots (after (registry_on_all "add" path) w)
                   = dots w ++ [registry_key path])
      by (by apply registry_add_absent).
    change (after (run []) ?x) with x.
    rewrite (registry_unlink_present _ _ _ (dots w) []) by done.
    apply app_nil_r.
  - intros l1 l2 Hd H1 H2. rewrite !run_cons. cbn [exec].
    assert (Hrm : dots (after (registry_on_all "unlink" path) w) = l1 ++ l2)
      by (by apply registry_unlink_present).
    change (after (run []) ?x) with x.
    rewrite registry_add_absent;
      [by rewrite Hrm, <- app_assoc | done | rewrite Hrm; by apply not_elem_of_app].
Qed.

Lemma registry_add_unlink_round_trip_witness :
  dots (after (run [RegistryEvent "add" "public/svg/b.html";
                    RegistryEvent "unlink" "public/svg/b.html"]) listing_a)
    = dots listing_a /\
  dots (after (run [RegistryEvent "unlink" "public/svg/a.html";
                    RegistryEvent "add" "public/svg/a.html"])
          (after (run (take 2 scenario)) (initial ∅)))
    = [] ++ ["svg/b.html"] ++ ["svg/a.html"].
Proof.
  split.
  - apply (proj1 (registry_add_unlink_round_trip "public/svg/b.html" listing_a)).
    vm_compute. intros H. apply list_elem_of_singleton in H. discriminate.
  - apply (proj2 (registry_add_unlink_round_trip "public/svg/a.html"
                    (after (run (take 2 scenario)) (initial ∅)))).
    + vm_compute. reflexivity.
    + apply not_elem_of_nil.
    + vm_compute. intros H. apply list_elem_of_singleton in H. discriminate.
Defined.

(** X5: in any state the process can reach, a registry event reported
    twice in a row leaves [dots] as the first report left it. *)
Theorem registry_event_idempotent (disk : gmap string string)
    (acts : list action) (event path : string) :
  let w := after (run acts) (initial disk) in
  dots (after (run [RegistryEvent event path; RegistryEvent event path]) w) =
  dots (after (run [RegistryEvent event path]) w).
Proof.
  cbn zeta. set (w := after (run acts) (initial disk)).
  assert (Hnd : NoDup (dots w)) by apply run_NoDup, NoDup_nil_2.
  rewrite !run_cons. change (after (run []) ?x) with x. cbn [exec].
  destruct (decide (event = "add")) as [->|Hadd].
  { apply registry_add_present; [done | apply add_listed]. }
  destruct (decide (event = "unlink")) as [->|Hunlink].
  { apply registry_unlink_absent; [done | by apply unlink_gone]. }
  by apply registry_other.
Qed.

(** X6: whatever the schedule, a page is listed only if the registry
    watcher reported an [add] for it. *)
Theorem listed_only_if_added (disk : gmap string string)
    (acts : list action) (h : string) :
  h ∈ dots (after (run acts) (initial disk)) ->
  exists path, RegistryEvent "add" path ∈ acts /\ registry_key path = h.
Proof.
  intros Hin.
  pose proof (run_last_add acts (initial disk) h NoDup_nil_2) as H.
  cbn [initial dots] in H.
  rewrite (bool_decide_eq_false_2 (h ∈ [])) in H by apply not_elem_of_nil.
  rewrite bool_decide_eq_true_2 in H by done.
  destruct (last_add_from_add false h acts) as [?|Hex]; [done|discriminate|done].
Qed.

Lemma listed_only_if_added_witness :
  exists path,
    RegistryEvent "add" path ∈ scenario /\ registry_key path = "svg/b.html".
Proof.
  apply (listed_only_if_added ∅ scenario "svg/b.html").
  vm_compute. apply list_elem_of_here.
Defined.

(** ** What the pipeline touches on disk *)

Section Footprint.

Lemma inside_svg_file (dotFile : string) : inside_svgDir (svg_file dotFile) = true.
Proof. unfold inside_svgDir, svg_file. by rewrite strip_prefix_app. Qed.

Lemma inside_html_file (dotFile : string) :
  inside_svgDir (html_file dotFile) = true.
Proof. unfold inside_svgDir, html_file. by rewrite strip_prefix_app. Qed.

Lemma outside_ne (path inner : string) :
  inside_svgDir path = false -> inside_svgDir inner = true -> inner <> path.
Proof. intros Hout Hin ->. congruence. Qed.

(** One step keeps every outstanding operation one the pipeline issued,
    and keeps every file outside [svgDir]. *)
Lemma exec_footprint (a : action) (w : World) :
  Forall issued_by_pipeline (pending w) ->
  Forall issued_by_pipeline (pending (after (exec a) w)) /\
  (forall path, inside_svgDir path = false ->
     files (after (exec a) w) !! path = files w !! path).
Proof.
  intros Hinv. destruct a as [event dotFile|event path|n r]; cbn [exec].
  - unfold after.
    destruct (String.eqb_spec event "add") as [->|H1].
    { rewrite source_add_eq. cbn [snd files pending]. split; [|done].
      apply Forall_app. split; [done|]. by apply Forall_singleton. }
    destruct (String.eqb_spec event "unlink") as [->|H2].
    { rewrite source_unlink_eq. cbn [snd files pending]. split; [done|].
      intros path Hout.
      rewrite !lookup_delete_ne; [done | |];
        apply (outside_ne _ _ Hout);
        [apply inside_svg_file | apply inside_html_file]. }
    by rewrite source_other_eq.
  - destruct (registry_frame event path w) as (Hf & Hp & _).
    by rewrite Hf, Hp.
  - unfold after.
    destruct (pending w !! n) as [[path cb|path data cb]|] eqn:E.
    + pose proof (Forall_lookup_1 _ _ _ _ Hinv E) as Ht.
      destruct cb as [dotFile h|h]; [|done]. destruct Ht as [-> ->].
      rewrite (complete_read_eq _ _ _ _ r E). cbn [run_callback].
      destruct r as [e|template].
      * rewrite template_read_failed_eq. cbn [snd files pending].
        split; [by apply Forall_delete | done].
      * rewrite template_read_ok_eq. cbn [snd files pending].
        split; [|done]. apply Forall_app. split; [by apply Forall_delete|].
        apply Forall_singleton. cbn. split; [done | by eexists].
    + pose proof (Forall_lookup_1 _ _ _ _ Hinv E) as Ht.
      destruct cb as [dotFile h|h]; [done|]. destruct Ht as [-> [dotFile ->]].
      rewrite (complete_write_eq _ _ _ _ _ r E). cbn [run_callback].
      destruct r as [e|d]; rewrite html_written_eq; cbn [snd files pending];
        (split; [by apply Forall_delete|]); [done|].
      intros path Hout. apply lookup_insert_ne.
      apply (outside_ne _ _ Hout), inside_html_file.
    + unfold complete. by rewrite E.
Qed.

Lemma run_footprint (acts : list action) (w : World) :
  Forall issued_by_pipeline (pending w) ->
  Forall issued_by_pipeline (pending (after (run acts) w)) /\
  (forall path, inside_svgDir path = false ->
     files (after (run acts) w) !! path = files w !! path).
Proof.
  revert w. induction acts as [|a acts IH]; intros w Hinv; [done|].
  rewrite run_cons. destruct (exec_footprint a w Hinv) as [Hinv' Hfiles].
  destruct (IH _ Hinv') as [Hinv'' Hfiles'']. split; [done|].
  intros path Hout. by rewrite Hfiles'', Hfiles.
Qed.

End Footprint.

(** X7: whatever the schedule and however the reads and writes end,
    the process writes and deletes only under [./public/svg/]: every
    other path, the template among them, holds at the end what it held
    at the start.  Along the way every
    outstanding read is a read of the template and every outstanding
    write is a write of some description file's page, with a callback
    that names that same page. *)
Theorem pipeline_stays_in_svgDir (disk : gmap string string)
    (acts : list action) :
  let w := after (run acts) (initial disk) in
  Forall issued_by_pipeline (pending w) /\
  (forall path, inside_svgDir path = false -> files w !! path = disk !! path) /\
  files w !! template_path = disk !! template_path.
Proof.
  cbn zeta.
  destruct (run_footprint acts (initial disk)) as [Hinv Hfiles];
    [apply Forall_nil_2|].
  split; [done|]. split; [done|]. by apply Hfiles.
Qed.

Lemma pipeline_stays_in_svgDir_witness :
  let disk : gmap string string := {[ "/tmp/dots/pipeline.dot" := "digraph {}" ]} in
  files (after (run (add_then_complete "/tmp/dots/pipeline.dot" 0
                       (Done "<img src='{{ svg_file_path }}'>")
                       (Done EmptyString) ++
                     [SourceEvent "unlink" "/tmp/dots/pipeline.dot"]))
          (initial disk))
    !! "/tmp/dots/pipeline.dot" = Some "digraph {}".
Proof.
  cbn zeta.
  destruct (pipeline_stays_in_svgDir
              {[ "/tmp/dots/pipeline.dot" := "digraph {}" ]}
              (add_then_complete "/tmp/dots/pipeline.dot" 0
                 (Done "<img src='{{ svg_file_path }}'>") (Done EmptyString) ++
               [SourceEvent "unlink" "/tmp/dots/pipeline.dot"]))
    as (_ & Hout & _).
  rewrite Hout by reflexivity. apply lookup_singleton_eq.
Defined.

(** ** More on the artifact names *)

Section Names.

Lemma slashes_cons (c : ascii) (s : string) :
  JS.occurrences "/" (String c s) =
  ((if Ascii.eqb "/" c then 1 else 0) + JS.occurrences "/" s)%nat.
Proof. cbn [JS.occurrences JS.strip_prefix]. by destruct (Ascii.eqb "/" c). Qed.

Lemma slashes_app (s t : string) :
  JS.occurrences "/" (s +:+ t) =
  (JS.occurrences "/" s + JS.occurrences "/" t)%nat.
Proof.
  induction s as [|c s IH]; [done|].
  rewrite append_cons, !slashes_cons, IH. lia.
Qed.

Lemma components_slash_free (p : string) :
  Forall (fun c => JS.occurrences "/" c = 0%nat) (JS.components p).
Proof.
  induction p as [|c p IH]; cbn [JS.components].
  { by apply Forall_singleton. }
  destruct (Ascii.eqb c "/") eqn:E; [by apply Forall_cons|].
  rewrite Ascii.eqb_sym in E.
  destruct (JS.components p) as [|x xs].
  - apply Forall_singleton. rewrite slashes_cons, E. done.
  - apply Forall_cons in IH as [Hx Hxs]. apply Forall_cons. split; [|done].
    rewrite slashes_cons, E. done.
Qed.

Lemma last_Forall (P : string -> Prop) (l : list string) (d : string) :
  Forall P l -> P d -> P (List.last l d).
Proof.
  intros Hl Hd. induction Hl as [|x l Hx Hl IH]; [done|].
  cbn [List.last]. by destruct l.
Qed.

Lemma filter_Forall (P : string -> Prop) (f : string -> bool)
    (l : list string) :
  Forall P l -> Forall P (List.filter f l).
Proof.
  induction 1 as [|x l Hx Hl IH]; cbn [List.filter]; [done|].
  destruct (f x); [by apply Forall_cons | done].
Qed.

Lemma basename_slash_free (p : string) :
  JS.occurrences "/" (JS.basename p) = 0%nat.
Proof.
  unfold JS.basename. apply last_Forall; [|done].
  apply filter_Forall, components_slash_free.
Qed.

Lemma split_first_found (pat s : string) :
  JS.occurrences pat s <> 0%nat ->
  exists before after, JS.split_first pat s = Some (before, after).
Proof.
  induction s as [|c s IH]; cbn [JS.occurrences JS.split_first];
    destruct (JS.strip_prefix pat _); intros H; eauto; try lia.
  destruct IH as (b & a & ->); [lia | eauto].
Qed.

(** Replacing [.dot] by an extension brings no slash in. *)
Lemma replace_ext_slash_free (ext s : string) :
  ext = ".svg" \/ ext = ".html" ->
  JS.occurrences "/" s = 0%nat ->
  JS.occurrences "/" (JS.replace ".dot" ext s) = 0%nat.
Proof.
  intros Hext Hs. unfold JS.replace.
  destruct (JS.split_first ".dot" s) as [[b a]|] eqn:E; [|done].
  apply split_first_Some in E. rewrite E, !slashes_app in Hs.
  rewrite !slashes_app. destruct Hext as [-> | ->]; cbn in *; lia.
Qed.

End Names.

(** X8: whatever path the source watcher reports, the image path and
    the page path are [./public/svg/] followed by a name without a
    slash: both artifacts are files of the output directory itself,
    never of a directory below or beside it. *)
Theorem artifacts_directly_in_svgDir (dotFile : string) :
  exists image page,
    svg_file dotFile = svgDir +:+ image /\
    html_file dotFile = svgDir +:+ page /\
    JS.occurrences "/" image = 0%nat /\
    JS.occurrences "/" page = 0%nat.
Proof.
  exists (JS.replace ".dot" ".svg" (JS.basename dotFile)),
         (JS.replace ".dot" ".html" (JS.basename dotFile)).
  split; [done|]. split; [done|].
  split; apply replace_ext_slash_free; auto using basename_slash_free.
Qed.

(** X9: the image path and the page path are the same path exactly
    when the base name of the description file holds no [.dot]; as
    soon as it holds one, the two differ. *)
Theorem artifacts_coincide_iff_no_dot (dotFile : string) :
  svg_file dotFile = html_file dotFile <->
  JS.occurrences ".dot" (JS.basename dotFile) = 0%nat.
Proof.
  split.
  - intros Heq.
    destruct (decide (JS.occurrences ".dot" (JS.basename dotFile) = 0%nat))
      as [|Hne]; [done|].
    destruct (split_first_found _ _ Hne) as (b & a & Hsplit).
    unfold svg_file, html_file, JS.replace in Heq. rewrite Hsplit in Heq.
    apply (inj (String.append _)) in Heq.
    apply (inj (String.append _)) in Heq.
    discriminate Heq.
  - intros H. unfold svg_file, html_file. by rewrite !replace_absent.
Qed.

Lemma artifacts_coincide_iff_no_dot_witness :
  svg_file "/tmp/dots/graphdot" = html_file "/tmp/dots/graphdot" /\
  JS.occurrences ".dot" (JS.basename "/tmp/dots/pipeline.dot") <> 0%nat.
Proof.
  split.
  - apply (proj2 (artifacts_coincide_iff_no_dot "/tmp/dots/graphdot")).
    reflexivity.
  - intros H.
    apply (proj2 (artifacts_coincide_iff_no_dot "/tmp/dots/pipeline.dot")) in H.
    vm_compute in H. discriminate H.
Defined.

(** ** The page that is written *)

Section Page.

Lemma placeholder_not_straddling (c : ascii) (pre post : string) :
  JS.strip_prefix placeholder (String c pre) = None ->
  JS.strip_prefix placeholder (String c (pre +:+ placeholder +:+ post)) = None.
Proof.
  unfold placeholder. cbn [JS.strip_prefix].
  destruct (Ascii.eqb "{" c); [|done].
  repeat (destruct pre as [|? pre]; [done|]; rewrite append_cons;
          destruct (Ascii.eqb _ _); [|done]).
  discriminate.
Qed.

Lemma split_first_placeholder (pre post : string) :
  JS.occurrences placeholder pre = 0%nat ->
  JS.split_first placeholder (pre +:+ placeholder +:+ post) = Some (pre, post).
Proof.
  induction pre as [|c pre IH]; intros H; [reflexivity|].
  rewrite append_cons. cbn [JS.split_first].
  cbn [JS.occurrences] in H.
  destruct (JS.strip_prefix placeholder (String c pre)) eqn:E; [lia|].
  rewrite (placeholder_not_straddling _ _ _ E), IH; [done | lia].
Qed.

(** A replacement text without a dollar sign stands for itself. *)
Lemma get_substitution_app (matched before after u rest : string) :
  JS.occurrences "$" u = 0%nat ->
  JS.get_substitution matched before after (u +:+ rest) =
  u +:+ JS.get_substitution matched before after rest.
Proof.
  induction u as [|c u IH]; intros H; [done|].
  cbn [JS.occurrences JS.strip_prefix] in H.
  rewrite !append_cons. cbn [JS.get_substitution]. rewrite Ascii.eqb_sym.
  destruct (Ascii.eqb "$" c); [lia|].
  f_equal. apply IH. lia.
Qed.

Lemma get_substitution_plain (matched before after u : string) :
  JS.occurrences "$" u = 0%nat ->
  JS.get_substitution matched before after u = u.
Proof.
  intros H. induction u as [|c u IH]; [done|].
  cbn [JS.occurrences JS.strip_prefix] in H.
  cbn [JS.get_substitution]. rewrite Ascii.eqb_sym.
  destruct (Ascii.eqb "$" c); [lia|].
  f_equal. apply IH. lia.
Qed.

End Page.

(** X10: for any description file whose image name holds no dollar
    sign, the read callback asks to write the template with its first
    placeholder replaced by the image name and with everything after
    it, further placeholders included, left as it is; a template
    without the placeholder is written as it is. *)
Theorem page_replaces_first_placeholder (dotFile h : string) (w : World) :
  let image := JS.replace ".dot" ".svg" (JS.basename dotFile) in
  (forall pre post,
     JS.occurrences "$" image = 0%nat ->
     JS.occurrences placeholder pre = 0%nat ->
     pending (after (template_read dotFile h None
                       (pre +:+ placeholder +:+ post)) w) =
     pending w ++ [WriteFile h (pre +:+ image +:+ post) (HtmlWritten h)]) /\
  (forall template,
     JS.occurrences placeholder template = 0%nat ->
     pending (after (template_read dotFile h None template) w) =
     pending w ++ [WriteFile h template (HtmlWritten h)]).
Proof.
  cbn zeta. split.
  - intros pre post Himage Hpre. unfold after.
    rewrite template_read_ok_eq. cbn [snd pending]. do 3 f_equal.
    unfold JS.replace at 1. rewrite split_first_placeholder by done.
    by rewrite get_substitution_plain.
  - intros template H. unfold after.
    rewrite template_read_ok_eq. cbn [snd pending].
    by rewrite (replace_absent placeholder).
Qed.

Lemma page_replaces_first_placeholder_witness :
  pending (after (template_read "/tmp/dots/a.dot" "./public/svg/a.html" None
                    ("<img src='" +:+ placeholder +:+
                     "'><p>{{ svg_file_path }}</p>")) (initial ∅)) =
  [] ++ [WriteFile "./public/svg/a.html"
           ("<img src='" +:+ "a.svg" +:+ "'><p>{{ svg_file_path }}</p>")
           (HtmlWritten "./public/svg/a.html")] /\
  pending (after (template_read "/tmp/dots/a.dot" "./public/svg/a.html" None
                    "<p>no image</p>") (initial ∅)) =
  [] ++ [WriteFile "./public/svg/a.html" "<p>no image</p>"
           (HtmlWritten "./public/svg/a.html")].
Proof.
  destruct (page_replaces_first_placeholder "/tmp/dots/a.dot"
              "./public/svg/a.html" (initial ∅)) as [Hfirst Hnone].
  split.
  - apply (Hfirst "<img src='" "'><p>{{ svg_file_path }}</p>"); reflexivity.
  - apply (Hnone "<p>no image</p>"). reflexivity.
Defined.

(** X11: the image name is handed to [replace] as a replacement
    pattern, not as plain text.  When it holds [$$] the page gets a
    single dollar sign there, and when it holds [$&] the page gets the
    placeholder back there: in both cases the page names a file other
    than the image the renderer was told to write. *)
Theorem page_expands_dollar_patterns (dotFile h : string) (w : World) :
  let image := JS.replace ".dot" ".svg" (JS.basename dotFile) in
  forall pre post u v,
    JS.occurrences placeholder pre = 0%nat ->
    JS.occurrences "$" u = 0%nat -> JS.occurrences "$" v = 0%nat ->
    (image = u +:+ "$$" +:+ v ->
     pending (after (template_read dotFile h None
                       (pre +:+ placeholder +:+ post)) w) =
     pending w ++
       [WriteFile h (pre +:+ (u +:+ "$" +:+ v) +:+ post) (HtmlWritten h)]) /\
    (image = u +:+ "$&" +:+ v ->
     pending (after (template_read dotFile h None
                       (pre +:+ placeholder +:+ post)) w) =
     pending w ++
       [WriteFile h (pre +:+ (u +:+ placeholder +:+ v) +:+ post)
          (HtmlWritten h)]).
Proof.
  cbn zeta. intros pre post u v Hpre Hu Hv.
  split; intros Himage; unfold after;
    rewrite template_read_ok_eq; cbn [snd pending]; do 3 f_equal;
    unfold JS.replace at 1; rewrite split_first_placeholder by done;
    rewrite Himage, get_substitution_app by done;
    do 2 f_equal; rewrite !append_cons, append_nil_l;
    cbn [JS.get_substitution Ascii.eqb Bool.eqb]; cbn match;
    by rewrite get_substitution_plain.
Qed.

Lemma page_expands_dollar_patterns_witness :
  pending (after (template_read "/tmp/dots/a$$b.dot" "./public/svg/a$$b.html"
                    None ("<img src='" +:+ placeholder +:+ "'>")) (initial ∅)) =
  [] ++ [WriteFile "./public/svg/a$$b.html"
           ("<img src='" +:+ ("a" +:+ "$" +:+ "b.svg") +:+ "'>")
           (HtmlWritten "./public/svg/a$$b.html")] /\
  svg_file "/tmp/dots/a$$b.dot" = "./public/svg/a$$b.svg".
Proof.
  split; [|reflexivity].
  apply (proj1 (page_expands_dollar_patterns "/tmp/dots/a$$b.dot"
                  "./public/svg/a$$b.html" (initial ∅)
                  "<img src='" "'>" "a" "b.svg"
                  eq_refl eq_refl eq_refl)).
  reflexivity.
Defined.

(** ** An [add] from the report to the written page *)

Section AddThrough.

Variables (dotFile template : string) (w : World).

Let image := JS.replace ".dot" ".svg" (JS.basename dotFile).
Let page := JS.replace placeholder image template.
Let started : effect :=
  Spawn "dot" ["-Tsvg"; dotFile; "-o"; svg_file dotFile].

(** The world once the [add] has been handled and the template has
    been read: the renderer is running and the page write is
    outstanding. *)
Lemma add_read_eq :
  after (run (add_then_read dotFile (length (pending w)) (Done template))) w =
  {| files := files w; dots := dots w;
     pending := pending w ++
       [WriteFile (html_file dotFile) page (HtmlWritten (html_file dotFile))];
     log := log w ++ [started] |}.
Proof.
  unfold add_then_read. rewrite !run_cons.
  change (after (run []) ?x) with x.
  set (w1 := after (exec (SourceEvent "add" dotFile)) w).
  assert (Hw1 : w1 =
    {| files := files w; dots := dots w;
       pending := pending w ++
         [ReadFile template_path (TemplateRead dotFile (html_file dotFile))];
       log := log w ++ [started] |}) by done.
  assert (Hp : pending w1 !! length (pending w) =
            Some (ReadFile template_path
                    (TemplateRead dotFile (html_file dotFile))))
    by (rewrite Hw1; by apply list_lookup_middle).
  unfold after. cbn [exec].
  rewrite (complete_read_eq _ _ _ _ _ Hp). cbn [run_callback].
  rewrite template_read_ok_eq. cbn [snd files dots pending log].
  rewrite Hw1. cbn [files dots pending log].
  by rewrite delete_middle, app_nil_r.
Qed.

Lemma add_complete_eq (written : outcome) :
  after (run (add_then_complete dotFile (length (pending w))
                (Done template) written)) w =
  {| files := match written with
              | Failed _ => files w
              | Done _ => <[html_file dotFile := page]> (files w)
              end;
     dots := dots w;
     pending := pending w;
     log := log w ++
       [started;
        match written with
        | Failed e => ConsoleError e
        | Done _ => ConsoleLog (html_file dotFile +:+ " has been saved!")
        end] |}.
Proof.
  change (add_then_complete dotFile (length (pending w)) (Done template) written)
    with (add_then_read dotFile (length (pending w)) (Done template) ++
          [Complete (length (pending w)) written]).
  rewrite run_app, add_read_eq, run_cons.
  change (after (run []) ?x) with x. unfold after. cbn [exec].
  erewrite complete_write_eq by (cbn [pending]; by apply list_lookup_middle).
  cbn [files dots pending log run_callback].
  destruct written as [e|d]; rewrite html_written_eq;
    cbn [snd files dots pending log];
    by rewrite delete_middle, app_nil_r, <- app_assoc.
Qed.

End AddThrough.

(** X12: for any description file and any template, an [add] whose
    read and write both go through leaves the page holding what
    [replace] made of the template, and says on the console that the
    page has been saved; when the write fails the error goes to the
    console and nothing is said to be saved.  Either way the renderer
    was started first, nothing stays outstanding, and [dots] is as it
    was. *)
Theorem add_written_or_reported (dotFile template : string) (w : World) :
  let image := JS.replace ".dot" ".svg" (JS.basename dotFile) in
  let started := Spawn "dot" ["-Tsvg"; dotFile; "-o"; svg_file dotFile] in
  let k := length (pending w) in
  (forall d,
     let w' := after (run (add_then_complete dotFile k (Done template)
                             (Done d))) w in
     files w' !! html_file dotFile =
       Some (JS.replace placeholder image template) /\
     log w' = log w ++
       [started; ConsoleLog (html_file dotFile +:+ " has been saved!")] /\
     pending w' = pending w /\ dots w' = dots w) /\
  (forall e,
     let w' := after (run (add_then_complete dotFile k (Done template)
                             (Failed e))) w in
     log w' = log w ++ [started; ConsoleError e] /\
     pending w' = pending w /\ dots w' = dots w).
Proof.
  cbn zeta. split.
  - intros d. rewrite add_complete_eq. cbn [files dots pending log].
    split; [apply lookup_insert_eq | done].
  - intros e. by rewrite add_complete_eq.
Qed.

(** ** Artifacts of different description files *)

Section Apart.

Lemma length_append (s t : string) :
  String.length (s +:+ t) = (String.length s + String.length t)%nat.
Proof.
  induction s as [|c s IH]; [done|]. rewrite append_cons. cbn. by rewrite IH.
Qed.

Lemma append_assoc_l (s t u : string) : (s +:+ t) +:+ u = s +:+ t +:+ u.
Proof.
  induction s as [|c s IH]; [done|]. by rewrite !append_cons, IH.
Qed.

(** Two texts that end in tails of one length are equal part by part. *)
Lemma append_inj_tail (s1 s2 t1 t2 : string) :
  s1 +:+ t1 = s2 +:+ t2 -> String.length t1 = String.length t2 ->
  s1 = s2 /\ t1 = t2.
Proof.
  revert s2. induction s1 as [|c1 s1 IH]; intros [|c2 s2] H Hlen.
  - done.
  - rewrite append_nil_l in H. subst t1.
    rewrite append_cons in Hlen. cbn in Hlen. rewrite length_append in Hlen. lia.
  - rewrite append_nil_l in H. subst t2.
    rewrite append_cons in Hlen. cbn in Hlen. rewrite length_append in Hlen. lia.
  - rewrite !append_cons in H. injection H as -> H.
    destruct (IH _ H Hlen) as [-> ->]. done.
Qed.

(** The artifacts of a file named [stem.dot], the stem without
    [.dot]. *)
Lemma stem_artifacts (dotFile stem : string) :
  JS.basename dotFile = stem +:+ ".dot" ->
  JS.occurrences ".dot" stem = 0%nat ->
  svg_file dotFile = svgDir +:+ stem +:+ ".svg" /\
  html_file dotFile = svgDir +:+ stem +:+ ".html".
Proof.
  intros Hbase Hstem. unfold svg_file, html_file. rewrite Hbase.
  split; f_equal.
  - by apply (replace_first_dot ".svg" stem EmptyString).
  - by apply (replace_first_dot ".html" stem EmptyString).
Qed.

Lemma stems_apart (stem1 stem2 : string) :
  stem1 <> stem2 ->
  stem1 +:+ ".svg" <> stem2 +:+ ".svg" /\
  stem1 +:+ ".html" <> stem2 +:+ ".html" /\
  stem1 +:+ ".svg" <> stem2 +:+ ".html" /\
  stem1 +:+ ".html" <> stem2 +:+ ".svg".
Proof.
  intros Hne. repeat split; intros H.
  - by apply append_inj_tail in H as [? _].
  - by apply append_inj_tail in H as [? _].
  - change (stem2 +:+ ".html") with (stem2 +:+ "." +:+ "html") in H.
    rewrite <- (append_assoc_l stem2) in H.
    by apply append_inj_tail in H as [_ ?].
  - change (stem1 +:+ ".html") with (stem1 +:+ "." +:+ "html") in H.
    rewrite <- (append_assoc_l stem1) in H.
    by apply append_inj_tail in H as [_ ?].
Qed.

End Apart.

(** X13: two description files named [stem.dot] with different stems,
    neither stem holding [.dot], share no artifact path; so the
    [unlink] of one leaves the image and the page of the other on disk
    as they were. *)
Theorem unlink_spares_other_files (dotFile1 dotFile2 stem1 stem2 : string)
    (w : World) :
  JS.basename dotFile1 = stem1 +:+ ".dot" ->
  JS.basename dotFile2 = stem2 +:+ ".dot" ->
  JS.occurrences ".dot" stem1 = 0%nat ->
  JS.occurrences ".dot" stem2 = 0%nat ->
  stem1 <> stem2 ->
  let w' := after (source_on_all "unlink" dotFile1) w in
  svg_file dotFile1 <> svg_file dotFile2 /\
  html_file dotFile1 <> html_file dotFile2 /\
  files w' !! svg_file dotFile2 = files w !! svg_file dotFile2 /\
  files w' !! html_file dotFile2 = files w !! html_file dotFile2.
Proof.
  intros Hb1 Hb2 Hs1 Hs2 Hne. cbn zeta.
  destruct (stem_artifacts _ _ Hb1 Hs1) as [Hsvg1 Hhtml1].
  destruct (stem_artifacts _ _ Hb2 Hs2) as [Hsvg2 Hhtml2].
  destruct (stems_apart _ _ Hne) as (Hss & Hhh & Hsh & Hhs).
  assert (Hss' : svg_file dotFile1 <> svg_file dotFile2).
  { rewrite Hsvg1, Hsvg2. intros H. by apply (inj (String.append _)) in H. }
  assert (Hhh' : html_file dotFile1 <> html_file dotFile2).
  { rewrite Hhtml1, Hhtml2. intros H. by apply (inj (String.append _)) in H. }
  assert (Hsh' : svg_file dotFile1 <> html_file dotFile2).
  { rewrite Hsvg1, Hhtml2. intros H. by apply (inj (String.append _)) in H. }
  assert (Hhs' : html_file dotFile1 <> svg_file dotFile2).
  { rewrite Hhtml1, Hsvg2. intros H. by apply (inj (String.append _)) in H. }
  unfold after. rewrite source_unlink_eq. cbn [snd files].
  by rewrite !lookup_delete_ne.
Qed.

Lemma unlink_spares_other_files_witness :
  let w := after (run (add_then_complete "/tmp/dots/b.dot" 0
                         (Done "<img src='{{ svg_file_path }}'>")
                         (Done EmptyString))) (initial ∅) in
  files (after (source_on_all "unlink" "/tmp/dots/a.dot") w)
    !! html_file "/tmp/dots/b.dot" = Some "<img src='b.svg'>".
Proof.
  cbn zeta.
  destruct (unlink_spares_other_files "/tmp/dots/a.dot" "/tmp/dots/b.dot"
              "a" "b"
              (after (run (add_then_complete "/tmp/dots/b.dot" 0
                             (Done "<img src='{{ svg_file_path }}'>")
                             (Done EmptyString))) (initial ∅))
              eq_refl eq_refl eq_refl eq_refl)
    as (_ & _ & _ & Hpage); [discriminate|].
  rewrite Hpage. vm_compute. reflexivity.
Defined.

(** X14: a report of the source watcher that is neither an [add] nor
    an [unlink], such as the [change] of a description file, has no
    effect at all: the world after a schedule is the world after the
    schedule without such reports.  A description file that is
    rewritten in place is not rendered again. *)
Theorem other_source_events_ignored (acts : list action) (w : World) :
  after (run acts) w =
  after (run (List.filter (fun a => negb (is_other_source_event a)) acts)) w.
Proof.
  revert w. induction acts as [|a acts IH]; intros w; [done|].
  cbn [List.filter]. destruct (is_other_source_event a) eqn:E; cbn [negb].
  - rewrite run_cons.
    destruct a as [event dotFile| |]; try discriminate. cbn in E.
    apply andb_true_iff in E as [H1 H2].
    apply negb_true_iff, String.eqb_neq in H1, H2.
    unfold after at 2. cbn [exec]. rewrite source_other_eq by done.
    apply IH.
  - rewrite !run_cons. apply IH.
Qed.

